(** * RTP-MIDI packet codec and session registry of go-midi-rtp

    A shallow embedding of [midi.GetDataLength], of [rtp.Decode],
    [rtp.parseMIDIList], [rtp.Encode] and [MIDICommands.encode], and of the
    registry and send operations of [session.MIDINetworkSession].

    Conventions.
    - A Go [byte], [uint16], [uint32] or [int] is a [Z]; every narrowing
      conversion and every wrap-around is written out.
    - A [[]byte] is a [list Z] whose capacity equals its length; an index or
      a slice expression out of range is the outcome [Panic].
    - [time.Time] and [time.Duration] are integers counting nanoseconds. *)

From stdpp Require Import gmap list strings.
From Stdlib Require Import ZArith Lia.

Local Open Scope Z_scope.

(** ** Outcomes of Go calls *)

(** A call either returns or panics with a run-time error; a loop modelled
    with fuel can also run out of it. *)
Inductive outcome (A : Type) : Type :=
| Return (a : A)
| Panic
| OutOfFuel.
Arguments Return {A} a.
Arguments Panic {A}.
Arguments OutOfFuel {A}.

Definition obind {A B} (o : outcome A) (k : A -> outcome B) : outcome B :=
  match o with
  | Return a => k a
  | Panic => Panic
  | OutOfFuel => OutOfFuel
  end.

Notation "'let!' x ':=' o 'in' k" := (obind o (fun x => k))
  (at level 10, x name, o at level 100, k at level 200, only parsing).

(** [buffer[i]] *)
Definition index (buffer : list Z) (i : Z) : outcome Z :=
  if decide (0 <= i) then
    match buffer !! Z.to_nat i with
    | Some b => Return b
    | None => Panic
    end
  else Panic.

(** [len(buffer)] *)
Definition len {A} (l : list A) : Z := Z.of_nat (length l).

(** [buffer[lo:hi]] *)
Definition slice (buffer : list Z) (lo hi : Z) : outcome (list Z) :=
  if decide (0 <= lo /\ lo <= hi /\ hi <= len buffer) then
    Return (take (Z.to_nat (hi - lo)) (drop (Z.to_nat lo) buffer))
  else Panic.

(** [binary.BigEndian.Uint16] and [Uint32] on a slice that is long enough. *)
Definition Uint16 (b : list Z) : outcome Z :=
  let! b0 := index b 0 in
  let! b1 := index b 1 in
  Return (Z.lor b1 (Z.shiftl b0 8)).

Definition Uint32 (b : list Z) : outcome Z :=
  let! b0 := index b 0 in
  let! b1 := index b 1 in
  let! b2 := index b 2 in
  let! b3 := index b 3 in
  Return (Z.lor (Z.lor (Z.lor b3 (Z.shiftl b2 8)) (Z.shiftl b1 16))
                (Z.shiftl b0 24)).

(** [binary.Write(b, binary.BigEndian, v)] for a [uint16] and a [uint32]. *)
Definition put16 (v : Z) : list Z :=
  [Z.land (Z.shiftr v 8) 255; Z.land v 255].

Definition put32 (v : Z) : list Z :=
  [Z.land (Z.shiftr v 24) 255; Z.land (Z.shiftr v 16) 255;
   Z.land (Z.shiftr v 8) 255; Z.land v 255].

Definition is_uint16 (v : Z) : Prop := 0 <= v < 65536.
Definition is_uint32 (v : Z) : Prop := 0 <= v < 4294967296.

(** ** Package midi: the command table *)

Module midi.

Record commandInfo := { dataLength : Z; name : string }.

Definition commandsInfos : gmap Z commandInfo :=
  list_to_map
    [ (0x80, {| dataLength := 2; name := "noteOff" |});
      (0x90, {| dataLength := 2; name := "noteOn" |});
      (0xa0, {| dataLength := 2; name := "polyphonicAftertouch" |});
      (0xb0, {| dataLength := 2; name := "controlChange" |});
      (0xc0, {| dataLength := 1; name := "programChange" |});
      (0xd0, {| dataLength := 1; name := "channelAftertouch" |});
      (0xe0, {| dataLength := 2; name := "pitchBend" |});
      (0xf0, {| dataLength := -1; name := "systemExclusive" |});
      (0xf1, {| dataLength := 1; name := "quarterFrame" |});
      (0xf2, {| dataLength := 2; name := "songPosition" |});
      (0xf3, {| dataLength := 1; name := "songSelect" |});
      (0xf6, {| dataLength := 0; name := "tuneRequest" |});
      (0xf8, {| dataLength := 0; name := "clock" |});
      (0xfa, {| dataLength := 0; name := "start" |});
      (0xfb, {| dataLength := 0; name := "continue" |});
      (0xfc, {| dataLength := 0; name := "stop" |});
      (0xfe, {| dataLength := 0; name := "activeSensing" |});
      (0xff, {| dataLength := 0; name := "reset" |}) ].

Definition GetCommandInfo (command : Z) : option commandInfo :=
  match commandsInfos !! command with
  | Some info => Some info
  | None =>
      match commandsInfos !! Z.land command 0xf0 with
      | Some info => Some info
      | None => None
      end
  end.

Definition GetDataLength (command : Z) : Z :=
  match GetCommandInfo command with
  | Some info => dataLength info
  | None => 0
  end.

End midi.

(** ** Package rtp: data model *)

Definition version2Bit : Z := 0x80.
Definition extensionBit : Z := 0x10.
Definition paddingBit : Z := 0x20.
Definition markerBit : Z := 0x80.
Definition ccMask : Z := 0x0f.
Definition ptMask : Z := 0x7f.

Definition minimumBufferLength : Z := 12.

Definition firstByte : Z := Z.lor (Z.lor (Z.lor version2Bit 0) 0) 0.
Definition payloadType : Z := 0x61.
Definition secondByte : Z := payloadType.

Definition deltaTimeMask : Z := 0x7f.
Definition deltaTimeHasNext : Z := 0x80.

Definition emtpyHeader : Z := 0x00.
Definition bigHeaderBit : Z := 0x80.
Definition journalBit : Z := 0x40.
Definition zeroDeltaBit : Z := 0x20.
Definition phantomBit : Z := 0x10.
Definition lenMask : Z := 0x0f.

Definition Millisecond : Z := 1000000.

Record RTPMIDIHeader := {
  Version : Z;
  Padding : bool;
  Extension : bool;
  CSRCCount : Z;
  Marker : Z;
  PayloadType : Z
}.

Definition MIDIPayload := list Z.

Record MIDICommand := {
  DeltaTime : Z;
  Payload : MIDIPayload
}.

Record MIDICommands := {
  Timestamp : Z;
  Commands : list MIDICommand
}.

Record MIDIMessage := {
  SequenceNumber : Z;
  SSRC : Z;
  MsgCommands : MIDICommands
}.

Record MIDIListHeader := {
  bigHeader : bool;
  hasJournal : bool;
  preceedingDeltaTime : bool;
  P : bool;
  Len : Z
}.

(** The errors built with [fmt.Errorf], by the values they print. *)
Inductive error :=
| BufferTooSmall (n : Z)
| PayloadTypeMismatch (got : Z)
| NotEnoughData (dataLength : Z).

(** The zero values [MIDICommands{}] and [MIDIMessage{}]. *)
Definition zeroCommands : MIDICommands := {| Timestamp := 0; Commands := [] |}.
Definition zeroMessage : MIDIMessage :=
  {| SequenceNumber := 0; SSRC := 0; MsgCommands := zeroCommands |}.

(** [RTPMIDIHeader.Valid] *)
Definition Valid (h : RTPMIDIHeader) : option error :=
  if decide (PayloadType h <> payloadType)
  then Some (PayloadTypeMismatch (PayloadType h))
  else None.

(** [RTPMIDIHeader.HasMIDIData] *)
Definition HasMIDIData (h : RTPMIDIHeader) : bool := 0 <? Marker h.

(** ** Package rtp: decoding *)

(** The delta-time loop of [parseMIDIList], [for k := 0; k < 4; k++]: [k]
    counts the iterations that are left. The accumulator is a [uint32]. *)
Fixpoint readDeltaTime (k : nat) (buffer : list Z) (offset deltaTime : Z)
  : outcome (Z * Z) :=
  match k with
  | O => Return (deltaTime, offset)
  | S k' =>
      let! currentOctet := index buffer offset in
      let deltaTime := Z.shiftl deltaTime 7 mod 2 ^ 32 in
      let deltaTime := Z.lor deltaTime (Z.land currentOctet deltaTimeMask) in
      let offset := offset + 1 in
      if Z.land currentOctet deltaTimeHasNext =? 0
      then Return (deltaTime, offset)
      else readDeltaTime k' buffer offset deltaTime
  end.

(** The SysEx scan, [for len(buffer) > offset+dataLength &&
    !(buffer[offset+dataLength]&0x80 > 0x00) { dataLength += 1 }]: [rest] is
    [buffer[offset+dataLength:]], empty when the length test fails. *)
Fixpoint scanSysEx (rest : list Z) (dataLength : Z) : Z :=
  match rest with
  | [] => dataLength
  | b :: rest' =>
      if 0 <? Z.land b 0x80 then dataLength
      else scanSysEx rest' (dataLength + 1)
  end.

(** The variables that live across iterations of the loop of
    [parseMIDIList]. *)
Record loopState := {
  offset : Z;
  commands : list MIDICommand;
  lastStatusByte : Z
}.

(** [command.Payload[len(command.Payload)-1]]; the payload is never empty
    there. *)
Definition lastByte (p : MIDIPayload) : Z := List.last p 0.

(** The delta-time part of one iteration: the decoded value and the offset
    after it. *)
Definition readCommandDelta (buffer : list Z) (header : MIDIListHeader)
  (st : loopState) : outcome (Z * Z) :=
  if (0 <? len (commands st)) || preceedingDeltaTime header
  then readDeltaTime 4 buffer (offset st) 0
  else Return (0, offset st).

(** One iteration of the loop of [parseMIDIList]: [inl] is the state at the
    next test of the loop condition (after the [append] or after
    [continue]), [inr] is the [return] inside the loop. *)
Definition parseCommand (buffer : list Z) (header : MIDIListHeader)
  (st : loopState) : outcome (loopState + list MIDICommand * option error) :=
  let! dt := readCommandDelta buffer header st in
  let deltaTime := dt.1 in
  let offset1 := dt.2 in
  (* deltaTime < 2^32, so the int64 product does not wrap *)
  let commandDeltaTime := Millisecond * deltaTime in
  let! statusByte0 := index buffer offset1 in
  let hasOwnStatusByte := Z.land statusByte0 0x80 =? 0x80 in
  let lastStatusByte' :=
    if hasOwnStatusByte then statusByte0 else lastStatusByte st in
  let offset2 := if hasOwnStatusByte then offset1 + 1 else offset1 in
  let statusByte :=
    if hasOwnStatusByte then statusByte0 else lastStatusByte st in
  let! dataLength :=
    if statusByte =? 0xf0 then
      let dataLength := scanSysEx (drop (Z.to_nat offset2) buffer) 0 in
      let! terminator := index buffer (offset2 + dataLength) in
      let dataLength :=
        if negb (terminator =? 0xf7) then dataLength - 1 else dataLength in
      Return (dataLength + 1)
    else Return (midi.GetDataLength statusByte) in
  if len buffer <? offset2 + dataLength then
    Return (inr (commands st, Some (NotEnoughData dataLength)))
  else
    let! pl :=
      if 0 <? dataLength then
        let! data := slice buffer offset2 (offset2 + dataLength) in
        Return ([statusByte] ++ data, offset2 + dataLength)
      else Return ([statusByte], offset2) in
    let payload := pl.1 in
    let offset3 := pl.2 in
    let command := {| DeltaTime := commandDeltaTime; Payload := payload |} in
    if negb ((List.hd 0 payload =? 0xf0) && negb (lastByte payload =? 0xf7))
    then Return (inl {| offset := offset3;
                        commands := commands st ++ [command];
                        lastStatusByte := lastStatusByte' |})
    else Return (inl {| offset := offset3;
                        commands := commands st;
                        lastStatusByte := lastStatusByte' |}).

(** The loop [for offset < end { ... }]. *)
Fixpoint parseLoop (fuel : nat) (buffer : list Z) (header : MIDIListHeader)
  (end_ : Z) (st : loopState) : outcome (list MIDICommand * option error) :=
  if offset st <? end_ then
    match fuel with
    | O => OutOfFuel
    | S fuel' =>
        let! r := parseCommand buffer header st in
        match r with
        | inl st' => parseLoop fuel' buffer header end_ st'
        | inr ret => Return ret
        end
    end
  else Return (commands st, None).

(** Iterations that the loop can need: every iteration moves [offset]
    forward, except at most one that makes [commands] non-empty. *)
Definition parseFuel (header : MIDIListHeader) : nat :=
  S (S (2 * Z.to_nat (Len header))).

Definition parseMIDIList (buffer : list Z) (offset0 : Z)
  (header : MIDIListHeader) : outcome (list MIDICommand * option error) :=
  let end_ := offset0 + Len header in
  parseLoop (parseFuel header) buffer header end_
    {| offset := offset0; commands := []; lastStatusByte := 0 |}.

(** The part of [Decode] that fills [midiListHeader] from the octets at
    [offset = 12] and finds [listStart]. *)
Definition decodeListHeader (buffer : list Z)
  : outcome (MIDIListHeader * Z) :=
  let! b12 := index buffer 12 in
  let big := 0 <? Z.land b12 bigHeaderBit in
  let! ls :=
    if big then
      let! s12 := slice buffer 12 14 in
      let! v := Uint16 s12 in
      Return (Z.land v 0x0fff, 14)
    else Return (Z.land b12 lenMask, 13) in
  Return ({| bigHeader := big;
             hasJournal := 0 <? Z.land b12 journalBit;
             preceedingDeltaTime := 0 <? Z.land b12 zeroDeltaBit;
             P := false;
             Len := ls.1 |}, ls.2).

(** The part of [Decode] that fills the RTP header from octets 0 and 1. *)
Definition decodeHeader (buffer : list Z) : outcome RTPMIDIHeader :=
  let! b0 := index buffer 0 in
  let! b1 := index buffer 1 in
  Return {| Version := Z.shiftr (Z.land b0 version2Bit) 6;
            Padding := 0 <? Z.land b0 paddingBit;
            Extension := 0 <? Z.land b0 extensionBit;
            CSRCCount := Z.land b0 ccMask;
            Marker := Z.shiftr (Z.land b1 markerBit) 7;
            PayloadType := Z.land b1 ptMask |}.

(** [Decode]; [now] is the value that [time.Now()] returns. The result is
    the pair [(msg, err)] of the Go function. *)
Definition Decode (now : Z) (buffer : list Z)
  : outcome (MIDIMessage * option error) :=
  if len buffer <? minimumBufferLength then
    Return (zeroMessage, Some (BufferTooSmall (len buffer)))
  else
    let! header := decodeHeader buffer in
    let! s2 := slice buffer 2 4 in
    let! sequenceNumber := Uint16 s2 in
    let! s8 := slice buffer 8 12 in
    let! ssrc := Uint32 s8 in
    let msg := {| SequenceNumber := sequenceNumber; SSRC := ssrc;
                  MsgCommands := zeroCommands |} in
    match Valid header with
    | Some err => Return (msg, Some err)
    | None =>
        let! hl := decodeListHeader buffer in
        let! parsed := parseMIDIList buffer hl.2 hl.1 in
        (* a parse error is printed and dropped: [return msg, nil] *)
        Return ({| SequenceNumber := sequenceNumber; SSRC := ssrc;
                   MsgCommands := {| Timestamp := now;
                                     Commands := parsed.1 |} |}, None)
    end.

(** ** Package rtp: encoding *)

Section Encoding.

(** Package [timestamp] is not part of the sources at hand. Its two
    functions used by the encoder are taken as parameters:
    [timestampOf t start] is [timestamp.Of(t, start).Uint32()] and
    [EncodeDeltaTime t start d] is the bytes that
    [timestamp.EncodeDeltaTime(t, start, d, b)] writes to [b]. *)
Variable timestampOf : Z -> Z -> Z.
Variable EncodeDeltaTime : Z -> Z -> Z -> list Z.

(** [MIDIPayload.encode]: the bytes written. *)
Definition encodePayload (p : MIDIPayload) : list Z :=
  if len p =? 0 then [] else p.

(** The loop [for i, mc := range mcs.Commands] of [MIDICommands.encode]:
    the header octet and the bytes of [b] after the iterations from [i]
    on. *)
Fixpoint encodeCommands (ts start : Z) (i : Z) (cmds : list MIDICommand)
  (header : Z) (b : list Z) : Z * list Z :=
  match cmds with
  | [] => (header, b)
  | mc :: cmds' =>
      let first := (i =? 0) && (0 <? DeltaTime mc) in
      let header := if first then Z.lor header zeroDeltaBit else header in
      let b := if first then b ++ EncodeDeltaTime ts start (DeltaTime mc)
               else b in
      let b := if 0 <? i then b ++ EncodeDeltaTime ts start (DeltaTime mc)
               else b in
      let b := b ++ encodePayload (Payload mc) in
      encodeCommands ts start (i + 1) cmds' header b
  end.

(** [byte(n)] for an [int] *)
Definition toByte (n : Z) : Z := n mod 256.

(** [MIDICommands.encode]: the bytes written to [w]. *)
Definition encodeMIDICommands (mcs : MIDICommands) (start : Z) : list Z :=
  if len (Commands mcs) =? 0 then [emtpyHeader]
  else
    let hb := encodeCommands (Timestamp mcs) start 0 (Commands mcs)
                emtpyHeader [] in
    let header := hb.1 in
    let b := hb.2 in
    let written :=
      if 4095 <? len b then []
      else if 15 <? len b then
        let header :=
          Z.lor (Z.lor header bigHeaderBit)
                (Z.land (toByte (Z.shiftr (len b) 8)) lenMask) in
        let count := toByte (len b) in
        [header; count]
      else
        let header := Z.lor header (Z.land (toByte (len b)) lenMask) in
        [header] in
    written ++ b.

(** The twelve octets that [Encode] writes before the MIDI list. *)
Definition encodeHeader (m : MIDIMessage) (start : Z) : list Z :=
  [firstByte; secondByte]
    ++ put16 (SequenceNumber m)
    ++ put32 (timestampOf (Timestamp (MsgCommands m)) start mod 2 ^ 32)
    ++ put32 (SSRC m).

(** [Encode] *)
Definition Encode (m : MIDIMessage) (start : Z) : list Z :=
  encodeHeader m start ++ encodeMIDICommands (MsgCommands m) start.

(** The MIDI-list body that [MIDICommands.encode] builds in [b], and the
    value of [header] after the loop. *)
Definition listBody (mcs : MIDICommands) (start : Z) : list Z :=
  (encodeCommands (Timestamp mcs) start 0 (Commands mcs) emtpyHeader []).2.

Definition listFlags (mcs : MIDICommands) (start : Z) : Z :=
  (encodeCommands (Timestamp mcs) start 0 (Commands mcs) emtpyHeader []).1.

(** The bytes that the loop of [MIDICommands.encode] writes for a command
    after the first: its delta-time, then its payload. *)
Definition encodeLater (ts start : Z) (mc : MIDICommand) : list Z :=
  EncodeDeltaTime ts start (DeltaTime mc) ++ encodePayload (Payload mc).

End Encoding.

(** ** Package session *)

Module session.

(** Modelled from the spec: package [sip] is not part of the sources at
    hand. A control message carries a command kind (at least Invitation
    and End, the others opaque), the remote SSRC and the advertised
    name. *)
Inductive sipCommand := Invitation | End | Other (code : Z).

#[global] Instance sipCommand_eq_dec : EqDecision sipCommand.
Proof. solve_decision. Defined.

Record ControlMessage := {
  Cmd : sipCommand;
  ctlSSRC : Z;
  Name : string
}.

(** Modelled from the spec: the declaration of [MIDINetworkStream] and of
    its states is not part of the sources at hand. The states are
    Initial, Established and Ended; the fields are those that
    [createConnection] sets. The back-reference [Session] points to the
    one session of this model and is not represented. *)
Inductive streamState := initial | established | ended.

Record MIDINetworkHost := { hostBonjourName : string }.

Record MIDINetworkStream := {
  Host : MIDINetworkHost;
  RemoteSSRC : Z;
  State : streamState
}.

(** A [*MIDINetworkStream] is an address in the store of streams. *)
Definition ptr := positive.

(** [MIDINetworkSession]; [connections] is the [sync.Map] from a remote
    SSRC to a [*MIDINetworkStream]. The [handler] plays no part in the
    operations modelled here. *)
Record MIDINetworkSession := {
  LocalName : string;
  BonjourName : string;
  Port : Z;
  sessSSRC : Z;
  sessSequenceNumber : Z;
  StartTime : Z;
  connections : gmap Z ptr
}.

(** The session together with the store that its pointers point into. *)
Record world := {
  sess : MIDINetworkSession;
  streams : gmap ptr MIDINetworkStream
}.

Definition setConnections (s : MIDINetworkSession) (c : gmap Z ptr)
  : MIDINetworkSession :=
  {| LocalName := LocalName s; BonjourName := BonjourName s;
     Port := Port s; sessSSRC := sessSSRC s;
     sessSequenceNumber := sessSequenceNumber s;
     StartTime := StartTime s; connections := c |}.

Definition setSequenceNumber (s : MIDINetworkSession) (n : Z)
  : MIDINetworkSession :=
  {| LocalName := LocalName s; BonjourName := BonjourName s;
     Port := Port s; sessSSRC := sessSSRC s;
     sessSequenceNumber := n;
     StartTime := StartTime s; connections := connections s |}.

(** [createConnection]: [&conn] is a new address. *)
Definition createConnection (w : world) (msg : ControlMessage)
  : world * ptr :=
  let host := {| hostBonjourName := Name msg |} in
  let conn := {| Host := host; RemoteSSRC := ctlSSRC msg;
                 State := initial |} in
  let p := fresh (dom (streams w)) in
  ({| sess := sess w; streams := <[p := conn]> (streams w) |}, p).

(** [sync.Map.LoadOrStore] on [connections] *)
Definition LoadOrStore (s : MIDINetworkSession) (key : Z) (value : ptr)
  : MIDINetworkSession * ptr * bool :=
  match connections s !! key with
  | Some actual => (s, actual, true)
  | None => (setConnections s (<[key := value]> (connections s)),
             value, false)
  end.

(** [getConnection]: the argument of [LoadOrStore] is evaluated first, so
    a stream is allocated for every Invitation. *)
Definition getConnection (w : world) (msg : ControlMessage)
  : world * option ptr :=
  if decide (Cmd msg = Invitation) then
    let '(w1, p) := createConnection w msg in
    let '(s2, conn, found) := LoadOrStore (sess w1) (ctlSSRC msg) p in
    ({| sess := s2; streams := streams w1 |}, Some conn)
  else
    (w, connections (sess w) !! ctlSSRC msg).

(** [loadMIDIConnection] *)
Definition loadMIDIConnection (w : world) (msg : MIDIMessage)
  : option ptr :=
  connections (sess w) !! SSRC msg.

(** [removeConnection] *)
Definition removeConnection (w : world) (conn : MIDINetworkStream)
  : world :=
  {| sess := setConnections (sess w)
               (delete (RemoteSSRC conn) (connections (sess w)));
     streams := streams w |}.

(** [SendMIDICommands]. [MIDINetworkStream.SendMIDIMessage] is not part of
    the sources at hand: each call of it made by the [Range] over
    [connections] is recorded, with the stream it is made on and the
    message it is given. *)
Definition SendMIDICommands (s : MIDINetworkSession) (mcs : MIDICommands)
  : MIDINetworkSession * list (ptr * MIDIMessage) :=
  let s := setSequenceNumber s ((sessSequenceNumber s + 1) mod 2 ^ 16) in
  let m := {| SequenceNumber := sessSequenceNumber s;
              SSRC := sessSSRC s;
              MsgCommands := mcs |} in
  (s, (fun kv : Z * ptr => (kv.2, m)) <$> map_to_list (connections s)).

(** [SendMIDIPayload]; [now] is the value that [time.Now()] returns. *)
Definition SendMIDIPayload (now : Z) (s : MIDINetworkSession)
  (payload : list Z) : MIDINetworkSession * list (ptr * MIDIMessage) :=
  let mcs := {| Timestamp := now;
                Commands := [ {| DeltaTime := 0; Payload := payload |} ] |} in
  SendMIDICommands s mcs.

(** Every registered connection points to a stream of the store. *)
Definition wfWorld (w : world) : Prop :=
  map_Forall (fun (_ : Z) (p : ptr) => is_Some (streams w !! p))
             (connections (sess w)).

(** A session with one connection, about to wrap its sequence number. *)
Definition exampleWorld : world :=
  {| sess := {| LocalName := "local"; BonjourName := "rtpmidi";
                Port := 7005; sessSSRC := 0x11223344;
                sessSequenceNumber := 65535; StartTime := 0;
                connections := {[ 0xcafe := 1%positive ]} |};
     streams := {[ 1%positive :=
                     {| Host := {| hostBonjourName := "peer" |};
                        RemoteSSRC := 0xcafe; State := established |} ]} |}.


(** [SendMIDICommands] called once for each element of a list, in order:
    the session after the calls. *)
Fixpoint sendEach (s : MIDINetworkSession) (mcss : list MIDICommands)
  : MIDINetworkSession :=
  match mcss with
  | [] => s
  | mcs :: rest => sendEach (SendMIDICommands s mcs).1 rest
  end.

End session.

(** ** Predicates used in the statements *)

(** The commands of a decoding result. *)
Definition decodedCommands (r : outcome (MIDIMessage * option error))
  : outcome (list MIDICommand) :=
  match r with
  | Return (m, _) => Return (Commands (MsgCommands m))
  | Panic => Panic
  | OutOfFuel => OutOfFuel
  end.

(** What a caller of [Decode] can tell apart, the moment of the call left
    out: the error, the sequence number, the SSRC and the commands. *)
Definition observable (r : outcome (MIDIMessage * option error))
  : outcome (Z * Z * list MIDICommand * option error) :=
  match r with
  | Return (m, e) =>
      Return (SequenceNumber m, SSRC m, Commands (MsgCommands m), e)
  | Panic => Panic
  | OutOfFuel => OutOfFuel
  end.

(** The status-byte test of the decoder. *)
Definition isStatus (b : Z) : bool := Z.land b 0x80 =? 0x80.

(** A delta-time as the decoder reads it with [k] octets to go: octets with
    the high bit set, closed by one with the high bit clear or by the
    [k]-th octet. *)
Fixpoint validDelta (k : nat) (os : list Z) : bool :=
  match k, os with
  | S k', o :: os' =>
      if Z.land o deltaTimeHasNext =? 0 then
        match os' with [] => true | _ => false end
      else
        match k' with
        | O => match os' with [] => true | _ => false end
        | S _ => validDelta k' os'
        end
  | _, _ => false
  end.

(** The value of a big-endian base-128 number: every octet gives its low
    seven bits. *)
Definition varintStep (acc o : Z) : Z := acc * 128 + o mod 128.

Definition varintValue (os : list Z) : Z := fold_left varintStep os 0.

(** The data of a System-Exclusive command: octets with the high bit clear,
    closed by [0xf7]. *)
Fixpoint sysexData (data : list Z) : bool :=
  match data with
  | [] => false
  | b :: data' =>
      match data' with
      | [] => b =? 0xf7
      | _ => (Z.land b 0x80 =? 0) && sysexData data'
      end
  end.

(** A payload that is one complete command for the decoder: a status byte,
    then the data bytes that the command table counts for it, or the data
    of a System-Exclusive command. *)
Definition wellFormed (p : MIDIPayload) : bool :=
  match p with
  | [] => false
  | status :: data =>
      isStatus status &&
      (if status =? 0xf0 then sysexData data
       else len data =? Z.max 0 (midi.GetDataLength status))
  end.

(** An encoder of delta-times used as an example: the duration in
    milliseconds as a base-128 number of one to four octets. *)
Definition exampleEncodeDeltaTime (t start d : Z) : list Z :=
  let v := (d / Millisecond) mod 2 ^ 28 in
  if v <? 2 ^ 7 then [v]
  else if v <? 2 ^ 14 then [Z.lor 0x80 (Z.shiftr v 7); Z.land v 0x7f]
  else if v <? 2 ^ 21 then
    [Z.lor 0x80 (Z.shiftr v 14); Z.lor 0x80 (Z.land (Z.shiftr v 7) 0x7f);
     Z.land v 0x7f]
  else
    [Z.lor 0x80 (Z.shiftr v 21); Z.lor 0x80 (Z.land (Z.shiftr v 14) 0x7f);
     Z.lor 0x80 (Z.land (Z.shiftr v 7) 0x7f); Z.land v 0x7f].

(** An example of [timestamp.Of]: ticks of 100 microseconds. *)
Definition exampleTimestampOf (t start : Z) : Z := (t - start) / 100000.

(** A twelve-octet RTP header as [Encode] writes it. *)
Definition exampleHeader : list Z :=
  [0x80; 0x61; 0x12; 0x34; 0; 0; 0; 5; 0xde; 0xad; 0xbe; 0xef].

(** The sequence number, the SSRC and the payload type as they stand in the
    wire header. *)
Definition wireSequenceNumber (buffer : list Z) : Z :=
  Z.lor (nth 3 buffer 0) (Z.shiftl (nth 2 buffer 0) 8).

Definition wireSSRC (buffer : list Z) : Z :=
  Z.lor (Z.lor (Z.lor (nth 11 buffer 0) (Z.shiftl (nth 10 buffer 0) 8))
               (Z.shiftl (nth 9 buffer 0) 16))
        (Z.shiftl (nth 8 buffer 0) 24).

Definition wirePayloadType (buffer : list Z) : Z :=
  Z.land (nth 1 buffer 0) ptMask.

(** A buffer with the fields that the decoder does not look at blanked:
    octet 0, the marker bit of octet 1 and the timestamp in octets 4 to
    7. *)
Definition eraseIgnored (buffer : list Z) : list Z :=
  imap (fun (i : nat) (b : Z) =>
          if decide (i = 0%nat \/ (4 <= i <= 7)%nat) then 0
          else if decide (i = 1%nat) then Z.land b ptMask
          else b) buffer.

(** The quantity that every iteration of the loop of [parseMIDIList]
    decreases. *)
Definition loopMeasure (end_ : Z) (st : loopState) : nat :=
  2 * Z.to_nat (end_ - offset st)
  + match commands st with [] => 1 | _ => 0 end.


(** What [header_octets_ok flags n] checks for a list body of [n] octets and
    the flag bits [flags] set by the loop of the encoder: the header octets
    that [MIDICommands.encode] computes, and what the decoder reads back
    from them. *)
Definition compactOctet (flags n : Z) : Z := Z.lor flags n.
Definition extendedOctet (flags n : Z) : Z :=
  Z.lor (Z.lor flags bigHeaderBit) (n / 256).

Definition header_octets_ok (flags n : Z) : bool :=
  if n <=? 15 then
    (Z.lor flags (Z.land (toByte n) lenMask) =? compactOctet flags n)
    && (Z.land (compactOctet flags n) bigHeaderBit =? 0)
    && (Z.land (compactOctet flags n) lenMask =? n)
    && (Z.land (compactOctet flags n) zeroDeltaBit =? flags)
  else
    (Z.lor (Z.lor flags bigHeaderBit)
           (Z.land (toByte (Z.shiftr n 8)) lenMask)
       =? extendedOctet flags n)
    && (toByte n =? n mod 256)
    && (Z.land (extendedOctet flags n) bigHeaderBit =? bigHeaderBit)
    && (Z.land (Z.lor (n mod 256) (Z.shiftl (extendedOctet flags n) 8))
               0x0fff =? n)
    && (Z.land (extendedOctet flags n) zeroDeltaBit =? flags).

(** A System-Exclusive command of [n + 2] octets. *)
Definition exampleSysEx (n : nat) : MIDICommand :=
  {| DeltaTime := 0; Payload := [0xf0] ++ repeat 0x01 n ++ [0xf7] |}.

Definition exampleCommands (n : nat) : MIDICommands :=
  {| Timestamp := 1000000; Commands := [exampleSysEx n] |}.


(** A datagram that ends one octet short of its second command. *)
Definition exampleTruncated : list Z :=
  exampleHeader ++ [0x06; 0x90; 0x40; 0x7f; 0x00; 0x90; 0x40].

(** A datagram whose MIDI list opens with a data byte. *)
Definition exampleNoStatus : list Z :=
  exampleHeader ++ [0x04; 0x40; 0x90; 0x40; 0x7f].

(** A datagram whose System-Exclusive command runs to the end of the
    buffer. *)
Definition exampleOpenSysEx : list Z :=
  exampleHeader ++ [0x03; 0xf0; 0x01; 0x02].


(** Two buffers of one length with the same octets from position [k] on. *)
Definition agreeFrom (k : nat) (b b' : list Z) : Prop :=
  length b = length b' /\ drop k b = drop k b'.


(** Two datagrams that differ in octet 0, in the marker bit and in the
    timestamp only. *)
Definition exampleNoteOn : list Z :=
  exampleHeader ++ [0x03; 0x90; 0x40; 0x7f].

Definition exampleNoteOnMarked : list Z :=
  [0xa3; 0xe1; 0x12; 0x34; 9; 8; 7; 6; 0xde; 0xad; 0xbe; 0xef]
    ++ [0x03; 0x90; 0x40; 0x7f].


(** A message whose one command lacks its second data byte, and a message
    of two complete commands. *)
Definition exampleIncomplete : MIDIMessage :=
  {| SequenceNumber := 0x1234; SSRC := 0xdeadbeef;
     MsgCommands :=
       {| Timestamp := 1000000;
          Commands := [ {| DeltaTime := 0; Payload := [0x90; 0x40] |} ] |} |}.

Definition exampleMessage : MIDIMessage :=
  {| SequenceNumber := 0x1234; SSRC := 0xdeadbeef;
     MsgCommands :=
       {| Timestamp := 1000000;
          Commands := [ {| DeltaTime := 0; Payload := [0x90; 0x40; 0x7f] |};
                        {| DeltaTime := 200 * Millisecond;
                           Payload := [0xf0; 0x01; 0x02; 0xf7] |} ] |} |}.


(** The data length of a status octet, by the ranges of the table and its
    fallback to the high nibble. *)
Definition dataLengthByRange (b : Z) : Z :=
  if b <? 0x80 then 0
  else if b <? 0xc0 then 2
  else if b <? 0xe0 then 1
  else if b <? 0xf0 then 2
  else if (b =? 0xf1) || (b =? 0xf3) then 1
  else if b =? 0xf2 then 2
  else if (b =? 0xf0) || (b =? 0xf4) || (b =? 0xf5) || (b =? 0xf7)
          || (b =? 0xf9) || (b =? 0xfd) then -1
  else 0.

(** A payload as the decoder can emit it: one complete command, or the
    single octet [00] of a running status taken before any status byte. *)
Definition emittedPayload (p : MIDIPayload) : Prop :=
  p = [0x00] \/ wellFormed p = true.

(** A delta-time as the decoder can emit it: a whole number of
    milliseconds below 2^28. *)
Definition emittedDeltaTime (d : Z) : Prop :=
  exists k, 0 <= k < 2 ^ 28 /\ d = Millisecond * k.

Definition emittedCommand (mc : MIDICommand) : Prop :=
  emittedPayload (Payload mc) /\ emittedDeltaTime (DeltaTime mc).


(** The test of [messageLoop] for a control packet,
    [binary.BigEndian.Uint16(buffer[0:2]) == 0xffff]. *)
Definition isControlPacket (buffer : list Z) : outcome bool :=
  let! s := slice buffer 0 2 in
  let! v := Uint16 s in
  Return (v =? 0xffff).

(** The state of the loop at the start of [parseMIDIList]. *)
Definition initialState (offset0 : Z) : loopState :=
  {| offset := offset0; commands := []; lastStatusByte := 0 |}.

(** Two Note-On commands on channel 12, the second in running status. *)
Definition exampleRunningStatus : list Z :=
  exampleHeader ++ [0x06; 0x9c; 0x40; 0x7f; 0x0a; 0x43; 0x7f].


(** A buffer with the J and P flags of the list header blanked: bits 6 and
    4 of octet 12. *)
Definition eraseListFlags (buffer : list Z) : list Z :=
  imap (fun (i : nat) (b : Z) =>
          if decide (i = 12%nat) then Z.land b 0xaf else b) buffer.

(** A Note-On datagram with the J and P flags set and journal octets after
    the list. *)
Definition exampleNoteOnJournal : list Z :=
  exampleHeader ++ [0x53; 0x90; 0x40; 0x7f].


(** The flag bits that the encoder leaves clear, and the B flag it sets by
    the length, checked on the header octet for a body of [n] octets. *)
Definition header_flags_ok (flags n : Z) : bool :=
  let h := if n <=? 15 then compactOctet flags n
           else extendedOctet flags n in
  (Z.land h journalBit =? 0) && (Z.land h phantomBit =? 0)
  && Bool.eqb (0 <? Z.land h bigHeaderBit) (15 <? n)
  && Bool.eqb (0 <? Z.land h zeroDeltaBit) (0 <? flags).

(** The number of list-header octets that [MIDICommands.encode] writes
    before a body of [n] octets. *)
Definition headerWidth (n : Z) : Z :=
  if 4095 <? n then 0 else if 15 <? n then 2 else 1.

(** What a command list becomes on the way through the encoder and the
    decoder: the payloads as they are, each delta-time as the value of the
    octets written for it, and 0 for a first command whose delta-time is
    not positive. *)
Definition throughCodec (EncodeDeltaTime : Z -> Z -> Z -> list Z)
  (ts start : Z) (cmds : list MIDICommand) : list MIDICommand :=
  match cmds with
  | [] => []
  | mc :: rest =>
      {| DeltaTime :=
           Millisecond
           * varintValue (if 0 <? DeltaTime mc
                          then EncodeDeltaTime ts start (DeltaTime mc)
                          else []);
         Payload := Payload mc |}
      :: map (fun mc' =>
                {| DeltaTime :=
                     Millisecond
                     * varintValue (EncodeDeltaTime ts start (DeltaTime mc'));
                   Payload := Payload mc' |}) rest
  end.

(** The delta-times that the encoder writes for a command list are such as
    the decoder reads: the first where it is positive, the others
    always. *)
Definition deltasReadable (EncodeDeltaTime : Z -> Z -> Z -> list Z)
  (ts start : Z) (cmds : list MIDICommand) : Prop :=
  match cmds with
  | [] => True
  | mc :: rest =>
      (0 < DeltaTime mc ->
       validDelta 4 (EncodeDeltaTime ts start (DeltaTime mc)) = true)
      /\ Forall (fun mc' =>
                   validDelta 4 (EncodeDeltaTime ts start (DeltaTime mc'))
                   = true) rest
  end.

(** * Properties *)

(** ** Bits, lengths, indices and slices *)

Lemma land_128_cases b : Z.land b 128 = 0 \/ Z.land b 128 = 128.
Proof.
  change 128 with (2 ^ 7).
  destruct (Z.testbit b 7) eqn:E.
  - right. apply Z.bits_inj'. intros n Hn.
    rewrite Z.land_spec, Z.pow2_bits_eqb by lia.
    destruct (Z.eqb_spec 7 n); subst; rewrite ?E; simpl;
      auto using andb_false_r.
  - left. apply Z.bits_inj'. intros n Hn.
    rewrite Z.land_spec, Z.pow2_bits_eqb, Z.bits_0 by lia.
    destruct (Z.eqb_spec 7 n); subst; rewrite ?E; simpl;
      auto using andb_false_r.
Qed.

Lemma len_app {A} (l k : list A) : len (l ++ k) = len l + len k.
Proof. unfold len. rewrite length_app. lia. Qed.

Lemma len_cons {A} (x : A) (l : list A) : len (x :: l) = 1 + len l.
Proof. unfold len. simpl. lia. Qed.

Lemma len_nil {A} : len (@nil A) = 0.
Proof. reflexivity. Qed.

Lemma len_nonneg {A} (l : list A) : 0 <= len l.
Proof. unfold len. lia. Qed.

Lemma to_nat_len {A} (l : list A) : Z.to_nat (len l) = length l.
Proof. unfold len. lia. Qed.

Lemma slice_in_range buffer lo hi :
  0 <= lo -> lo <= hi -> hi <= len buffer ->
  slice buffer lo hi
  = Return (take (Z.to_nat (hi - lo)) (drop (Z.to_nat lo) buffer)).
Proof. intros. unfold slice. rewrite decide_True; [reflexivity | lia]. Qed.

Lemma index_Return buffer i b :
  index buffer i = Return b ->
  0 <= i < len buffer
  /\ drop (Z.to_nat i) buffer = b :: drop (S (Z.to_nat i)) buffer.
Proof.
  unfold index. destruct (decide (0 <= i)); [|discriminate].
  destruct (buffer !! Z.to_nat i) as [x|] eqn:E; [|discriminate].
  intros [= ->]. split.
  - apply lookup_lt_Some in E. unfold len. lia.
  - now apply drop_S.
Qed.

Lemma index_past_end buffer i : len buffer <= i -> index buffer i = Panic.
Proof.
  intros H. unfold index. destruct (decide (0 <= i)); [|reflexivity].
  rewrite lookup_ge_None_2; [reflexivity|]. unfold len in H. lia.
Qed.

Lemma index_not_OutOfFuel buffer i : index buffer i <> OutOfFuel.
Proof.
  unfold index. destruct (decide _); [|discriminate].
  destruct (buffer !! _); discriminate.
Qed.

(** ** The decoder, step by step *)

Lemma Decode_long now buffer :
  12 <= len buffer ->
  Decode now buffer =
    if decide (wirePayloadType buffer <> payloadType) then
      Return ({| SequenceNumber := wireSequenceNumber buffer;
                 SSRC := wireSSRC buffer;
                 MsgCommands := zeroCommands |},
              Some (PayloadTypeMismatch (wirePayloadType buffer)))
    else
      let! hl := decodeListHeader buffer in
      let! parsed := parseMIDIList buffer hl.2 hl.1 in
      Return ({| SequenceNumber := wireSequenceNumber buffer;
                 SSRC := wireSSRC buffer;
                 MsgCommands := {| Timestamp := now;
                                   Commands := parsed.1 |} |},
              None).
Proof.
  intros Hlen. unfold Decode.
  destruct (Z.ltb_spec (len buffer) minimumBufferLength) as [Hlt|_];
    [unfold minimumBufferLength in Hlt; lia|].
  rewrite !slice_in_range by lia.
  do 12 (destruct buffer as [|? buffer];
         [unfold len in Hlen; simpl in Hlen; lia|]).
  set (L := decodeListHeader _). set (Pm := parseMIDIList _).
  clearbody L Pm.
  unfold wirePayloadType, wireSequenceNumber, wireSSRC, Valid, decodeHeader.
  simpl. destruct (decide _); reflexivity.
Qed.

Lemma Decode_short now buffer :
  len buffer < 12 ->
  Decode now buffer
  = Return (zeroMessage, Some (BufferTooSmall (len buffer))).
Proof.
  intros H. unfold Decode, minimumBufferLength.
  destruct (Z.ltb_spec (len buffer) 12); [reflexivity|lia].
Qed.

Lemma readDeltaTime_offset k buffer o d v o' :
  readDeltaTime k buffer o d = Return (v, o') ->
  (k = O /\ o' = o) \/ (o < o' <= len buffer).
Proof.
  revert o d. induction k as [|k IH]; intros o d; simpl.
  - intros [= -> ->]. now left.
  - destruct (index buffer o) as [b| |] eqn:Hi; simpl; try discriminate.
    apply index_Return in Hi as [Hi _].
    destruct (Z.land b deltaTimeHasNext =? 0).
    + intros [= <- <-]. right. lia.
    + intros H. apply IH in H as [[-> ->]|H]; right; lia.
Qed.

Lemma scanSysEx_lower rest n : n <= scanSysEx rest n.
Proof.
  revert n. induction rest as [|b rest IH]; intros n; simpl; [lia|].
  destruct (0 <? Z.land b 128); [lia|]. specialize (IH (n + 1)). lia.
Qed.

Lemma scanSysEx_upper rest n : scanSysEx rest n <= n + len rest.
Proof.
  revert n. induction rest as [|b rest IH]; intros n; simpl.
  - unfold len; simpl; lia.
  - rewrite len_cons. destruct (0 <? Z.land b 128); [pose proof (len_nonneg rest); lia|].
    specialize (IH (n + 1)). lia.
Qed.

Lemma scanSysEx_data b rest n :
  Z.land b 128 = 0 -> n + 1 <= scanSysEx (b :: rest) n.
Proof.
  intros H. simpl. rewrite H. simpl. apply scanSysEx_lower.
Qed.

Lemma readCommandDelta_offset buffer header st v o :
  readCommandDelta buffer header st = Return (v, o) ->
  (o = offset st /\ commands st = []) \/ offset st < o <= len buffer.
Proof.
  unfold readCommandDelta.
  destruct (0 <? len (commands st)) eqn:Hc; cbn [orb].
  - intros H. apply readDeltaTime_offset in H as [[? _]|H]; [discriminate|now right].
  - assert (commands st = []) as Hnil.
    { destruct (commands st); [reflexivity|]. rewrite len_cons in Hc.
      pose proof (len_nonneg l). lia. }
    destruct (preceedingDeltaTime header).
    + intros H. apply readDeltaTime_offset in H as [[? _]|H]; [discriminate|now right].
    + intros [= <- <-]. now left.
Qed.

(** What one iteration does to the loop variables. *)
Lemma parseCommand_progress buffer header st st' :
  parseCommand buffer header st = Return (inl st') ->
  (offset st < offset st'
   \/ (offset st' = offset st /\ commands st = [] /\ commands st' <> []))
  /\ (commands st <> [] -> commands st' <> [])
  /\ offset st' <= len buffer.
Proof.
  unfold parseCommand. intros H.
  destruct (readCommandDelta buffer header st) as [[dv o1]| |] eqn:Hd;
    try discriminate.
  apply readCommandDelta_offset in Hd. cbn [obind fst snd] in H.
  destruct (index buffer o1) as [sb| |] eqn:Hi; try discriminate.
  apply index_Return in Hi as [Ho1 Hdrop]. cbn [obind] in H.
  set (own := Z.land sb 128 =? 128) in *.
  set (status := if own then sb else lastStatusByte st) in *.
  set (o2 := if own then o1 + 1 else o1) in *.
  assert (Ho2 : o1 <= o2 <= len buffer /\ (own = true -> o1 < o2))
    by (subst o2; destruct own; split; (lia || congruence)).
  match type of H with
  | obind ?dl _ = _ => destruct dl as [dataLength| |] eqn:Hdl; try discriminate
  end.
  cbn [obind] in H.
  assert (Hsx : status = 0xf0 -> own = false -> 1 <= dataLength).
  { intros Hs Hown. rewrite Hs in Hdl. cbn [Z.eqb Pos.eqb] in Hdl.
    subst o2. rewrite Hown in Hdl. rewrite Hdrop in Hdl.
    assert (Hz : Z.land sb 128 = 0).
    { destruct (land_128_cases sb) as [E|E]; [exact E|].
      subst own. rewrite E in Hown. discriminate. }
    cbn [scanSysEx] in Hdl. rewrite Hz in Hdl. cbn [Z.ltb Z.compare] in Hdl.
    pose proof (scanSysEx_lower (drop (S (Z.to_nat o1)) buffer) (0 + 1)) as Hs1.
    destruct (index buffer _) as [t| |]; try discriminate.
    cbn [obind] in Hdl. injection Hdl as <-.
    destruct (negb (t =? 247)); lia. }
  destruct (len buffer <? o2 + dataLength) eqn:Hlen; [discriminate|].
  apply Z.ltb_ge in Hlen.
  match type of H with
  | obind ?pl _ = _ => destruct pl as [[payload o3]| |] eqn:Hpl; try discriminate
  end.
  cbn [obind fst snd] in H.
  assert (Ho3 : (0 < dataLength /\ o3 = o2 + dataLength)
                \/ (dataLength <= 0 /\ o3 = o2 /\ payload = [status])).
  { destruct (Z.ltb_spec 0 dataLength).
    - destruct (slice buffer o2 (o2 + dataLength)); try discriminate.
      cbn [obind] in Hpl. injection Hpl as <- <-. left. lia.
    - injection Hpl as <- <-. right. auto. }
  assert (Hst : offset st' = o3
                /\ (commands st' = commands st
                    \/ exists c, commands st' = commands st ++ [c])
                /\ (dataLength <= 0 -> status <> 0xf0 ->
                    exists c, commands st' = commands st ++ [c])).
  { destruct (negb _) eqn:Hk; injection H as <-; cbn [offset commands].
    - repeat split; eauto.
    - repeat split; eauto. intros Hle Hne. exfalso.
      destruct Ho3 as [[? _]|(_ & _ & ->)]; [lia|].
      cbn in Hk. destruct (Z.eqb_spec status 240); [congruence|].
      discriminate. }
  destruct Hst as (-> & Hcm & Hadd).
  split; [|split].
  - destruct Ho3 as [[Hpos ->]|(Hle & -> & _)]; [left; lia|].
    destruct Hd as [[-> Hnil]|Hd]; [|left; lia].
    destruct own eqn:Hown; [left; destruct Ho2 as [_ Ho2]; specialize (Ho2 eq_refl); lia|].
    destruct (Z.eq_dec status 240) as [Hs|Hs].
    + specialize (Hsx Hs eq_refl). lia.
    + right. destruct (Hadd Hle Hs) as [c ->].
      subst o2. repeat split; auto. now destruct (commands st).
  - intros Hne. destruct Hcm as [->|[c ->]]; [exact Hne|].
    now destruct (commands st).
  - destruct Ho3 as [[_ ->]|(_ & -> & _)]; lia.
Qed.

(** ** Termination of the loop *)

Lemma obind_not_OutOfFuel {A B} (o : outcome A) (k : A -> outcome B) :
  o <> OutOfFuel -> (forall a, k a <> OutOfFuel) -> obind o k <> OutOfFuel.
Proof. intros Ho Hk. destruct o; simpl; [apply Hk|discriminate|congruence]. Qed.

Lemma slice_not_OutOfFuel buffer lo hi : slice buffer lo hi <> OutOfFuel.
Proof. unfold slice. destruct (decide _); discriminate. Qed.

Lemma readDeltaTime_not_OutOfFuel k buffer o d :
  readDeltaTime k buffer o d <> OutOfFuel.
Proof.
  revert o d. induction k as [|k IH]; intros o d; simpl; [discriminate|].
  apply obind_not_OutOfFuel; [apply index_not_OutOfFuel|].
  intros b. destruct (_ =? _); [discriminate|apply IH].
Qed.

Ltac no_fuel :=
  repeat first
    [ apply readDeltaTime_not_OutOfFuel
    | apply index_not_OutOfFuel
    | apply slice_not_OutOfFuel
    | discriminate
    | apply obind_not_OutOfFuel; [|intros ?]
    | match goal with |- (if ?c then _ else _) <> _ => destruct c end ].

Lemma parseCommand_not_OutOfFuel buffer header st :
  parseCommand buffer header st <> OutOfFuel.
Proof. unfold parseCommand, readCommandDelta. no_fuel. Qed.

Lemma decodeListHeader_not_OutOfFuel buffer :
  decodeListHeader buffer <> OutOfFuel.
Proof. unfold decodeListHeader, Uint16. no_fuel. Qed.

Lemma loopMeasure_step buffer header end_ st st' :
  parseCommand buffer header st = Return (inl st') ->
  offset st < end_ ->
  (loopMeasure end_ st' < loopMeasure end_ st)%nat.
Proof.
  intros H Hlt. apply parseCommand_progress in H as (Hadv & Hne & _).
  unfold loopMeasure. destruct Hadv as [Hadv|(-> & -> & Hc)].
  - destruct (commands st'), (commands st); lia.
  - destruct (commands st'); [congruence|lia].
Qed.

(** The loop ends: with more fuel than the measure it does not run out. *)
Lemma parseLoop_fuel_enough fuel buffer header end_ st :
  (loopMeasure end_ st < fuel)%nat ->
  parseLoop fuel buffer header end_ st <> OutOfFuel.
Proof.
  revert st. induction fuel as [|fuel IH]; intros st Hm; [lia|].
  simpl. destruct (Z.ltb_spec (offset st) end_); [|discriminate].
  pose proof (parseCommand_not_OutOfFuel buffer header st) as Hn.
  destruct (parseCommand buffer header st) as [[st'|ret]| |] eqn:E;
    simpl; try congruence.
  apply IH. pose proof (loopMeasure_step _ _ _ _ _ E H). lia.
Qed.

(** More fuel does not change a result. *)
Lemma parseLoop_fuel_mono fuel fuel' buffer header end_ st :
  (fuel <= fuel')%nat ->
  parseLoop fuel buffer header end_ st <> OutOfFuel ->
  parseLoop fuel' buffer header end_ st = parseLoop fuel buffer header end_ st.
Proof.
  revert fuel' st. induction fuel as [|fuel IH]; intros fuel' st Hle.
  - simpl. destruct (offset st <? end_) eqn:E; [congruence|].
    intros _. destruct fuel'; simpl; now rewrite E.
  - destruct fuel' as [|fuel']; [lia|]. simpl.
    destruct (offset st <? end_); [|reflexivity].
    destruct (parseCommand buffer header st) as [[st'|ret]| |]; simpl; auto.
    apply IH. lia.
Qed.

Lemma parseMIDIList_not_OutOfFuel buffer offset0 header :
  parseMIDIList buffer offset0 header <> OutOfFuel.
Proof.
  unfold parseMIDIList. apply parseLoop_fuel_enough.
  unfold loopMeasure, parseFuel. cbn [offset commands].
  replace (offset0 + Len header - offset0) with (Len header) by lia. lia.
Qed.

(** [Decode] returns or panics on every buffer: the fuel is never used up. *)
Lemma Decode_not_OutOfFuel now buffer : Decode now buffer <> OutOfFuel.
Proof.
  destruct (Z.lt_ge_cases (len buffer) 12) as [H|H].
  - rewrite Decode_short by exact H. discriminate.
  - rewrite Decode_long by exact H. destruct (decide _); [discriminate|].
    apply obind_not_OutOfFuel; [apply decodeListHeader_not_OutOfFuel|].
    intros hl. apply obind_not_OutOfFuel; [apply parseMIDIList_not_OutOfFuel|].
    discriminate.
Qed.
(** ** The encoder *)

Section EncoderProperties.
Variable EncodeDeltaTime : Z -> Z -> Z -> list Z.

Lemma encodeCommands_later ts start i cmds header b :
  0 < i ->
  encodeCommands EncodeDeltaTime ts start i cmds header b
  = (header, b ++ concat (map (encodeLater EncodeDeltaTime ts start) cmds)).
Proof.
  revert i b. induction cmds as [|mc cmds IH]; intros i b Hi; simpl.
  - now rewrite app_nil_r.
  - destruct (Z.eqb_spec i 0); [lia|]. cbn [andb].
    destruct (Z.ltb_spec 0 i); [|lia].
    rewrite IH by lia. unfold encodeLater. now rewrite <- !app_assoc.
Qed.

Lemma encodeCommands_first ts start mc cmds :
  encodeCommands EncodeDeltaTime ts start 0 (mc :: cmds) emtpyHeader []
  = (if 0 <? DeltaTime mc then zeroDeltaBit else 0,
     (if 0 <? DeltaTime mc then EncodeDeltaTime ts start (DeltaTime mc)
      else [])
       ++ encodePayload (Payload mc)
       ++ concat (map (encodeLater EncodeDeltaTime ts start) cmds)).
Proof.
  simpl. rewrite encodeCommands_later by lia.
  destruct (0 <? DeltaTime mc); cbn [app]; now rewrite <- ?app_assoc.
Qed.

Lemma listFlags_cases mcs start :
  listFlags EncodeDeltaTime mcs start = 0
  \/ listFlags EncodeDeltaTime mcs start = zeroDeltaBit.
Proof.
  unfold listFlags. destruct (Commands mcs) as [|mc cmds]; [now left|].
  rewrite encodeCommands_first. cbn [fst]. destruct (0 <? _); auto.
Qed.

Lemma header_octets_checked :
  forallb (fun flags =>
             forallb (header_octets_ok flags) (map Z.of_nat (seq 0 4096)))
          [0; zeroDeltaBit] = true.
Proof. vm_compute. reflexivity. Qed.

Lemma header_octets flags n :
  flags = 0 \/ flags = zeroDeltaBit -> 0 <= n <= 4095 ->
  header_octets_ok flags n = true.
Proof.
  intros Hf Hn. pose proof header_octets_checked as H.
  rewrite forallb_forall in H. specialize (H flags).
  rewrite forallb_forall in H. apply H.
  - destruct Hf as [->| ->]; simpl; auto.
  - apply in_map_iff. exists (Z.to_nat n). split; [lia|].
    apply in_seq. lia.
Qed.

Lemma encodeMIDICommands_nonempty mcs start :
  Commands mcs <> [] ->
  encodeMIDICommands EncodeDeltaTime mcs start
  = (if 4095 <? len (listBody EncodeDeltaTime mcs start) then []
     else if 15 <? len (listBody EncodeDeltaTime mcs start) then
       [Z.lor (Z.lor (listFlags EncodeDeltaTime mcs start) bigHeaderBit)
              (Z.land (toByte (Z.shiftr (len (listBody EncodeDeltaTime mcs start)) 8)) lenMask);
        toByte (len (listBody EncodeDeltaTime mcs start))]
     else [Z.lor (listFlags EncodeDeltaTime mcs start)
                 (Z.land (toByte (len (listBody EncodeDeltaTime mcs start))) lenMask)])
    ++ listBody EncodeDeltaTime mcs start.
Proof.
  intros Hne. unfold encodeMIDICommands, listBody, listFlags.
  destruct (Commands mcs) as [|mc cmds] eqn:E; [congruence|].
  rewrite len_cons. destruct (Z.eqb_spec (1 + len cmds) 0) as [H0|_].
  - pose proof (len_nonneg cmds). lia.
  - reflexivity.
Qed.

(** C7. [MIDICommands.encode] writes a single zero octet for an empty
    command sequence. For a non-empty one whose list body has [n] octets it
    writes, before the body, one octet that carries [n] in its low four bits
    with the B bit clear when [n <= 15], 15 included, and two octets when
    [15 < n <= 4095], 16 included: the first has the B bit set and carries
    the high four bits of [n], the second carries the low eight, so that the
    twelve low bits of the pair are [n]. *)
Theorem encode_header_width (mcs : MIDICommands) (start : Z) :
  (Commands mcs = [] ->
   encodeMIDICommands EncodeDeltaTime mcs start = [0x00])
  /\ (Commands mcs <> [] ->
      len (listBody EncodeDeltaTime mcs start) <= 15 ->
      let n := len (listBody EncodeDeltaTime mcs start) in
      let h := compactOctet (listFlags EncodeDeltaTime mcs start) n in
      encodeMIDICommands EncodeDeltaTime mcs start
      = [h] ++ listBody EncodeDeltaTime mcs start
      /\ Z.land h bigHeaderBit = 0
      /\ Z.land h lenMask = n)
  /\ (Commands mcs <> [] ->
      15 < len (listBody EncodeDeltaTime mcs start) <= 4095 ->
      let n := len (listBody EncodeDeltaTime mcs start) in
      let h := extendedOctet (listFlags EncodeDeltaTime mcs start) n in
      encodeMIDICommands EncodeDeltaTime mcs start
      = [h; n mod 256] ++ listBody EncodeDeltaTime mcs start
      /\ Z.land h bigHeaderBit = bigHeaderBit
      /\ Z.land (Z.lor (n mod 256) (Z.shiftl h 8)) 0x0fff = n).
Proof.
  split; [|split].
  - intros E. unfold encodeMIDICommands. now rewrite E.
  - intros Hne Hn n h. subst h.
    pose proof (len_nonneg (listBody EncodeDeltaTime mcs start)) as H0.
    pose proof (header_octets _ n (listFlags_cases mcs start)
                  ltac:(subst n; lia)) as Hok.
    unfold header_octets_ok in Hok.
    destruct (Z.leb_spec n 15) as [_|?]; [|subst n; lia].
    apply andb_prop in Hok as [Hok _]. apply andb_prop in Hok as [Hok H3].
    apply andb_prop in Hok as [H1 H2].
    apply Z.eqb_eq in H1, H2, H3.
    rewrite encodeMIDICommands_nonempty by exact Hne. fold n.
    destruct (Z.ltb_spec 4095 n); [lia|]. destruct (Z.ltb_spec 15 n); [lia|].
    rewrite H1. auto.
  - intros Hne Hn n h. subst h.
    pose proof (header_octets _ n (listFlags_cases mcs start)
                  ltac:(subst n; lia)) as Hok.
    unfold header_octets_ok in Hok.
    destruct (Z.leb_spec n 15) as [?|_]; [subst n; lia|].
    apply andb_prop in Hok as [Hok _]. apply andb_prop in Hok as [Hok H4].
    apply andb_prop in Hok as [Hok H3]. apply andb_prop in Hok as [H1 H2].
    apply Z.eqb_eq in H1, H2, H3, H4.
    rewrite encodeMIDICommands_nonempty by exact Hne. fold n.
    destruct (Z.ltb_spec 4095 n); [lia|]. destruct (Z.ltb_spec 15 n); [|lia].
    rewrite H1, H2. auto.
Qed.

End EncoderProperties.

(** A body of exactly 15 octets gets the compact header [0x0f], one of
    exactly 16 octets the extended header [0x80 0x10]. *)
Lemma encode_header_width_witness :
  encodeMIDICommands exampleEncodeDeltaTime (exampleCommands 13) 0
  = [0x0f] ++ listBody exampleEncodeDeltaTime (exampleCommands 13) 0
  /\ encodeMIDICommands exampleEncodeDeltaTime (exampleCommands 14) 0
     = [0x80; 0x10] ++ listBody exampleEncodeDeltaTime (exampleCommands 14) 0.
Proof.
  split.
  - apply (encode_header_width exampleEncodeDeltaTime (exampleCommands 13) 0);
      [discriminate | vm_compute; discriminate].
  - apply (encode_header_width exampleEncodeDeltaTime (exampleCommands 14) 0);
      [discriminate | vm_compute; split; [reflexivity | discriminate]].
Defined.

(** ** The session: sending and the registry *)

Section SessionProperties.
Import session.

Lemma SendMIDICommands_calls s mcs :
  length (SendMIDICommands s mcs).2 = size (connections s).
Proof.
  unfold SendMIDICommands. cbn [snd connections setSequenceNumber].
  rewrite length_fmap. apply length_map_to_list.
Qed.

(** C8. A call of [SendMIDICommands] leaves the session with its sequence
    number incremented by one modulo 2^16 and with its SSRC, start time and
    connections unchanged; it builds one message [m], with that sequence
    number, the SSRC of the session and the commands given, and hands this
    same [m] to every registered connection, however many there are.
    [SendMIDIPayload] is [SendMIDICommands] on the one-command list made of
    the payload. *)
Theorem SendMIDICommands_effect (s : MIDINetworkSession)
  (mcs : MIDICommands) :
  let m := {| SequenceNumber := (sessSequenceNumber s + 1) mod 2 ^ 16;
              SSRC := sessSSRC s;
              MsgCommands := mcs |} in
  sessSequenceNumber (SendMIDICommands s mcs).1
    = (sessSequenceNumber s + 1) mod 2 ^ 16
  /\ sessSSRC (SendMIDICommands s mcs).1 = sessSSRC s
  /\ StartTime (SendMIDICommands s mcs).1 = StartTime s
  /\ connections (SendMIDICommands s mcs).1 = connections s
  /\ (SendMIDICommands s mcs).2
     = (fun kv : Z * ptr => (kv.2, m)) <$> map_to_list (connections s)
  /\ length (SendMIDICommands s mcs).2 = size (connections s)
  /\ (forall now payload,
        SendMIDIPayload now s payload
        = SendMIDICommands s
            {| Timestamp := now;
               Commands := [ {| DeltaTime := 0; Payload := payload |} ] |}).
Proof.
  intros m. repeat split. apply SendMIDICommands_calls.
Qed.

Lemma exampleWorld_wf : wfWorld exampleWorld.
Proof.
  unfold wfWorld. apply map_Forall_singleton. vm_compute. eauto.
Qed.

Lemma getConnection_wf w msg : wfWorld w -> wfWorld (getConnection w msg).1.
Proof.
  intros Hwf. unfold getConnection, createConnection, LoadOrStore.
  destruct (decide (Cmd msg = Invitation)); [|exact Hwf].
  cbn [sess streams].
  assert (Hf : streams w !! fresh (dom (streams w)) = None).
  { apply not_elem_of_dom. apply is_fresh. }
  unfold wfWorld.
  destruct (connections (sess w) !! ctlSSRC msg) as [p|] eqn:Hp;
    cbn [fst snd sess streams connections setConnections].
  - intros k q Hk. destruct (Hwf _ _ Hk) as [x Hx].
    exists x. rewrite lookup_insert_ne; [exact Hx|]. congruence.
  - apply map_Forall_insert_2.
    + rewrite lookup_insert_eq. eauto.
    + intros k q Hk. destruct (Hwf _ _ Hk) as [x Hx].
      exists x. rewrite lookup_insert_ne; [exact Hx|]. congruence.
Qed.

(** C9. In a session whose connections all point to streams, an Invitation
    for an SSRC that is registered returns the pointer that is registered,
    changes nothing in the session, its registry included, and leaves the
    stream pointed to as it is. An Invitation for an SSRC that is not
    registered returns a pointer [p] that was not in use, now pointing to a
    stream in state [initial] with that SSRC and the name of the message,
    and the registry is the old one with the SSRC bound to [p]: one entry
    more, the others as they were. *)
Theorem getConnection_Invitation (w : world) (ssrc : Z) (name : string) :
  wfWorld w ->
  let msg := {| Cmd := Invitation; ctlSSRC := ssrc; Name := name |} in
  (forall p,
      connections (sess w) !! ssrc = Some p ->
      (getConnection w msg).2 = Some p
      /\ sess (getConnection w msg).1 = sess w
      /\ streams (getConnection w msg).1 !! p = streams w !! p)
  /\ (connections (sess w) !! ssrc = None ->
      exists p,
        (getConnection w msg).2 = Some p
        /\ streams w !! p = None
        /\ streams (getConnection w msg).1 !! p
           = Some {| Host := {| hostBonjourName := name |};
                     RemoteSSRC := ssrc; State := initial |}
        /\ connections (sess (getConnection w msg).1)
           = <[ssrc := p]> (connections (sess w))
        /\ size (connections (sess (getConnection w msg).1))
           = S (size (connections (sess w)))
        /\ (forall k, k <> ssrc ->
              connections (sess (getConnection w msg).1) !! k
              = connections (sess w) !! k)).
Proof.
  intros Hwf msg. unfold getConnection, createConnection, LoadOrStore.
  cbn [Cmd msg ctlSSRC Name sess streams].
  rewrite decide_True by reflexivity.
  assert (Hf : streams w !! fresh (dom (streams w)) = None).
  { apply not_elem_of_dom. apply is_fresh. }
  split.
  - intros p Hp. rewrite Hp. cbn [fst snd sess streams]. repeat split.
    apply lookup_insert_ne. intros E. rewrite E in Hf.
    destruct (Hwf _ _ Hp) as [x Hx]. congruence.
  - intros Hn. rewrite Hn.
    cbn [fst snd sess streams connections setConnections].
    exists (fresh (dom (streams w))). repeat split; auto.
    + apply lookup_insert_eq.
    + now apply map_size_insert_None.
    + intros k Hk. now apply lookup_insert_ne.
Qed.

End SessionProperties.

(** A second Invitation from the registered peer [0xcafe] returns its
    stream, the one at address 1. *)
Lemma getConnection_Invitation_witness :
  session.wfWorld session.exampleWorld
  /\ (session.getConnection session.exampleWorld
        {| session.Cmd := session.Invitation; session.ctlSSRC := 0xcafe;
           session.Name := "peer" |}).2 = Some 1%positive.
Proof.
  split; [exact exampleWorld_wf|].
  apply (getConnection_Invitation session.exampleWorld 0xcafe "peer"
           exampleWorld_wf).
  reflexivity.
Defined.
(** ** Positions in a buffer built by appending *)

Lemma index_app_at pre x post : index (pre ++ x :: post) (len pre) = Return x.
Proof.
  unfold index. rewrite decide_True by apply len_nonneg.
  rewrite to_nat_len, list_lookup_middle; reflexivity.
Qed.

Lemma drop_app_at (pre rest : list Z) :
  drop (Z.to_nat (len pre)) (pre ++ rest) = rest.
Proof. rewrite to_nat_len. apply drop_app_length. Qed.

Lemma slice_app_at pre mid post :
  slice (pre ++ mid ++ post) (len pre) (len pre + len mid) = Return mid.
Proof.
  pose proof (len_nonneg pre). pose proof (len_nonneg mid).
  pose proof (len_nonneg post).
  rewrite slice_in_range by (rewrite ?len_app; lia).
  rewrite drop_app_at. f_equal.
  replace (len pre + len mid - len pre) with (len mid) by lia.
  rewrite to_nat_len. apply take_app_length.
Qed.

Lemma wirePayloadType_app h tail :
  length h = 12%nat -> wirePayloadType (h ++ tail) = wirePayloadType h.
Proof.
  intros H. unfold wirePayloadType. f_equal. apply app_nth1. lia.
Qed.

(** [Decode] on a header [h] of twelve octets with the right payload type,
    followed by [tail]. *)
Lemma Decode_valid_header now h tail :
  length h = 12%nat -> wirePayloadType h = payloadType ->
  Decode now (h ++ tail) =
    let! hl := decodeListHeader (h ++ tail) in
    let! parsed := parseMIDIList (h ++ tail) hl.2 hl.1 in
    Return ({| SequenceNumber := wireSequenceNumber (h ++ tail);
               SSRC := wireSSRC (h ++ tail);
               MsgCommands := {| Timestamp := now;
                                 Commands := parsed.1 |} |},
            None).
Proof.
  intros Hl Hpt. rewrite Decode_long.
  - rewrite wirePayloadType_app, Hpt by exact Hl.
    now rewrite decide_False by auto.
  - rewrite len_app. unfold len at 1. rewrite Hl. pose proof (len_nonneg tail). lia.
Qed.

Lemma decodedCommands_valid_header now h tail :
  length h = 12%nat -> wirePayloadType h = payloadType ->
  decodedCommands (Decode now (h ++ tail)) =
    let! hl := decodeListHeader (h ++ tail) in
    let! parsed := parseMIDIList (h ++ tail) hl.2 hl.1 in
    Return parsed.1.
Proof.
  intros Hl Hpt. rewrite Decode_valid_header by assumption.
  destruct (decodeListHeader _) as [hl| |]; try reflexivity.
  cbn [obind]. destruct (parseMIDIList _ _ _); reflexivity.
Qed.

(** Evaluation of the list part once the twelve header octets are named. *)
Ltac name_header h Hl :=
  do 12 (destruct h as [|? h]; [discriminate Hl|]);
  destruct h; [clear Hl|discriminate Hl].

Ltac eval_commands h Hl Hpt :=
  rewrite decodedCommands_valid_header by assumption;
  clear Hpt; name_header h Hl; vm_compute; reflexivity.

(** ** Delta-times *)

Lemma lor_low7 a b :
  Z.lor (a * 128) (Z.land b 127) = a * 128 + b mod 128.
Proof.
  change 127 with (Z.ones 7). rewrite Z.land_ones by lia.
  change 128 with (2 ^ 7). rewrite <- Z.shiftl_mul_pow2 by lia.
  rewrite <- Z.lxor_lor, <- Z.add_nocarry_lxor; try reflexivity.
  all: apply Z.bits_inj'; intros n Hn; rewrite Z.land_spec, Z.bits_0;
    destruct (Z.lt_ge_cases n 7);
    [ rewrite Z.shiftl_spec_low by lia; reflexivity
    | rewrite (Z.mod_pow2_bits_high b 7 n) by lia; apply andb_false_r ].
Qed.

Lemma varintStep_bound acc o k :
  0 <= k -> 0 <= acc < 128 ^ k -> 0 <= varintStep acc o < 128 ^ (k + 1).
Proof.
  intros Hk Hacc. unfold varintStep.
  pose proof (Z.mod_pos_bound o 128 ltac:(lia)).
  rewrite Z.pow_add_r by lia. change (128 ^ 1) with 128. nia.
Qed.

Lemma readDeltaTime_valid k pre os post d :
  validDelta k os = true ->
  (k <= 4)%nat -> 0 <= d < 128 ^ (4 - Z.of_nat k) ->
  readDeltaTime k (pre ++ os ++ post) (len pre) d
  = Return (fold_left varintStep os d, len pre + len os).
Proof.
  revert pre os d. induction k as [|k IH]; intros pre os d Hv Hk Hd.
  - destruct os; discriminate.
  - destruct os as [|o os]; [discriminate|].
    cbn [validDelta] in Hv. cbn [readDeltaTime app].
    rewrite index_app_at. cbn [obind].
    assert (Hsh : Z.shiftl d 7 mod 2 ^ 32 = d * 128).
    { rewrite Z.shiftl_mul_pow2 by lia. change (2 ^ 7) with 128.
      apply Z.mod_small.
      assert (128 ^ (4 - Z.of_nat (S k)) <= 128 ^ 3)
        by (apply Z.pow_le_mono_r; lia).
      change (128 ^ 3) with 2097152 in *. lia. }
    rewrite Hsh. unfold deltaTimeMask. rewrite lor_low7.
    fold (varintStep d o). rewrite len_cons.
    destruct (Z.land o deltaTimeHasNext =? 0).
    + destruct os; [|discriminate]. cbn [fold_left]. rewrite len_nil.
      do 2 f_equal; try lia.
    + destruct k as [|k].
      * destruct os; [|discriminate]. cbn [readDeltaTime fold_left].
        rewrite len_nil. do 2 f_equal; try lia.
      * change (pre ++ o :: os ++ post) with (pre ++ [o] ++ os ++ post).
        rewrite (app_assoc pre [o]).
        replace (len pre + 1) with (len (pre ++ [o]))
          by (rewrite len_app, len_cons, len_nil; lia).
        rewrite IH; [|exact Hv|lia|].
        -- cbn [fold_left]. rewrite len_app, len_cons, len_nil.
           do 2 f_equal; try lia.
        -- replace (4 - Z.of_nat (S k)) with (4 - Z.of_nat (S (S k)) + 1)
             by lia.
           apply varintStep_bound; [lia|exact Hd].
Qed.


(** C6. Where a delta-time [os] (octets with the high bit set, closed by
    an octet with the high bit clear or by the fourth octet) stands at the
    offset of an iteration, the iteration reads nothing and takes the
    delta-time 0 when no command has been decoded yet and the Z flag is
    clear; otherwise it reads exactly [os] and takes its big-endian base-128
    value, seven bits an octet. The octets [81 00] have the value 128 and
    [00] the value 0; four octets with the high bit set are read as four
    and no more. A command carries the value as that many milliseconds. *)
Theorem delta_time_decoding (now : Z) (h pre os post : list Z)
  (header : MIDIListHeader) (st : loopState) :
  length h = 12%nat -> wirePayloadType h = payloadType ->
  validDelta 4 os = true -> offset st = len pre ->
  readCommandDelta (pre ++ os ++ post) header st
  = (if (0 <? len (commands st)) || preceedingDeltaTime header
     then Return (varintValue os, offset st + len os)
     else Return (0, offset st))
  /\ 1 <= len os <= 4
  /\ varintValue [0x81; 0x00] = 128
  /\ varintValue [0x00] = 0
  /\ (forall d1 d2,
        decodedCommands (Decode now (h ++ [0x03; 0x90; d1; d2]))
        = Return [ {| DeltaTime := 0; Payload := [0x90; d1; d2] |} ])
  /\ (forall d1 d2,
        decodedCommands (Decode now (h ++ [0x25; 0x81; 0x00; 0x90; d1; d2]))
        = Return [ {| DeltaTime := 128 * Millisecond;
                      Payload := [0x90; d1; d2] |} ])
  /\ (forall d1 d2,
        decodedCommands
          (Decode now (h ++ [0x05; 0x90; d1; d2; 0x00; 0xf8]))
        = Return [ {| DeltaTime := 0; Payload := [0x90; d1; d2] |};
                   {| DeltaTime := 0 * Millisecond; Payload := [0xf8] |} ])
  /\ decodedCommands
       (Decode now (h ++ [0x25; 0xff; 0xff; 0xff; 0xff; 0xf8]))
     = Return [ {| DeltaTime := (2 ^ 28 - 1) * Millisecond;
                   Payload := [0xf8] |} ].
Proof.
  intros Hl Hpt Hv Ho. split; [|split].
  - unfold readCommandDelta. destruct (_ || _); [|reflexivity].
    rewrite Ho. unfold varintValue. apply readDeltaTime_valid;
      [exact Hv|lia|simpl; lia].
  - destruct os as [|a [|b [|c [|d [|e os]]]]]; cbn in Hv;
      rewrite ?len_cons, ?len_nil; try lia; try discriminate.
    repeat (destruct (_ =? 0) in Hv; try discriminate).
  - repeat split; try reflexivity; try intros d1 d2; eval_commands h Hl Hpt.
Qed.

(** The octets [81 00] before a Note-On, read with the Z flag set. *)
Lemma delta_time_decoding_witness :
  readCommandDelta (exampleHeader ++ [0x25] ++ [0x81; 0x00] ++ [0x90; 0x40; 0x7f])
    {| bigHeader := false; hasJournal := false; preceedingDeltaTime := true;
       P := false; Len := 5 |}
    {| offset := 13; commands := []; lastStatusByte := 0 |}
  = Return (128, 15).
Proof.
  apply (delta_time_decoding 0 exampleHeader (exampleHeader ++ [0x25])
           [0x81; 0x00] [0x90; 0x40; 0x7f]
           {| bigHeader := false; hasJournal := false;
              preceedingDeltaTime := true; P := false; Len := 5 |}
           {| offset := 13; commands := []; lastStatusByte := 0 |});
    reflexivity.
Defined.

(** ** Panics, errors and partial results *)

(** C2, at the inputs where the code departs from it: a buffer of exactly
    twelve octets with the right payload type, and a buffer whose
    System-Exclusive command runs to the end without an octet that has the
    high bit set. [Decode] panics on both: it indexes the buffer at its
    length. *)
Theorem Decode_panics_at_buffer_end (now : Z) :
  Decode now exampleHeader = Panic
  /\ Decode now exampleOpenSysEx = Panic.
Proof. split; vm_compute; reflexivity. Qed.

(** Any buffer of twelve octets with the right payload type. *)
Lemma Decode_header_only now h :
  len h = 12 -> wirePayloadType h = payloadType -> Decode now h = Panic.
Proof.
  intros Hl Hpt. rewrite Decode_long by lia. rewrite Hpt.
  rewrite decide_False by auto. unfold decodeListHeader.
  rewrite index_past_end by lia. reflexivity.
Qed.

(** The errors of [Decode] are the two of its header checks. *)
Lemma Decode_errors now buffer m e :
  Decode now buffer = Return (m, Some e) ->
  (len buffer < 12 /\ e = BufferTooSmall (len buffer) /\ m = zeroMessage)
  \/ (12 <= len buffer /\ wirePayloadType buffer <> payloadType
      /\ e = PayloadTypeMismatch (wirePayloadType buffer)
      /\ Commands (MsgCommands m) = []).
Proof.
  destruct (Z.lt_ge_cases (len buffer) 12) as [H|H].
  - rewrite Decode_short by exact H. intros [= <- <-]. left. auto.
  - rewrite Decode_long by exact H. destruct (decide _) as [Hne|He].
    + intros [= <- <-]. right. auto.
    + destruct (decodeListHeader buffer) as [hl| |]; try discriminate.
      cbn [obind]. destruct (parseMIDIList _ _ _); discriminate.
Qed.

(** A buffer shorter than the header gives the first error and no
    command. *)
Lemma Decode_too_short now buffer :
  len buffer < 12 ->
  exists m, Decode now buffer = Return (m, Some (BufferTooSmall (len buffer)))
            /\ Commands (MsgCommands m) = [].
Proof.
  intros H. exists zeroMessage. now rewrite Decode_short by exact H.
Qed.

Lemma parseCommand_return buffer header st cmds e :
  parseCommand buffer header st = Return (inr (cmds, e)) ->
  cmds = commands st /\ exists n, e = Some (NotEnoughData n).
Proof.
  unfold parseCommand. intros H.
  destruct (readCommandDelta buffer header st) as [[dv o1]| |];
    try discriminate.
  cbn [obind fst snd] in H.
  destruct (index buffer o1) as [sb| |]; try discriminate.
  cbn [obind] in H.
  match type of H with
  | obind ?dl _ = _ => destruct dl as [dataLength| |]; try discriminate
  end.
  cbn [obind] in H.
  destruct (len buffer <? _).
  - injection H as <- <-. eauto.
  - match type of H with
    | obind ?pl _ = _ => destruct pl as [[payload o3]| |]; try discriminate
    end.
    cbn [obind fst snd] in H. destruct (negb _); discriminate.
Qed.

Lemma parseLoop_error fuel buffer header end_ st cmds e :
  parseLoop fuel buffer header end_ st = Return (cmds, Some e) ->
  exists n, e = NotEnoughData n.
Proof.
  revert st. induction fuel as [|fuel IH]; intros st; simpl.
  - destruct (offset st <? end_); discriminate.
  - destruct (offset st <? end_); [|discriminate].
    destruct (parseCommand buffer header st) as [[st'|[c e']]| |] eqn:E;
      simpl; try discriminate.
    + apply IH.
    + intros [= -> ->]. apply parseCommand_return in E as [_ [n [= ->]]].
      eauto.
Qed.




(** C4, at an input where the code departs from it: the list of
    [exampleNoStatus] opens with the data byte [40]. No status byte has
    been seen, so the running status is the zero value, and the first
    command decoded has the payload [00], which is no status byte. *)
Theorem running_status_without_status (now : Z) :
  decodedCommands (Decode now exampleNoStatus)
  = Return [ {| DeltaTime := 0; Payload := [0x00] |};
             {| DeltaTime := 64 * Millisecond;
                Payload := [0x90; 0x40; 0x7f] |} ]
  /\ isStatus 0x00 = false.
Proof. split; vm_compute; reflexivity. Qed.
(** ** What the decoder reads *)

Lemma obind_ext {A B} (o : outcome A) (k k' : A -> outcome B) :
  (forall a, o = Return a -> k a = k' a) -> obind o k = obind o k'.
Proof. intros H. destruct o; simpl; auto. Qed.

Section Agreement.
Variables (k : nat) (b b' : list Z).
Hypothesis Hagree : agreeFrom k b b'.

Lemma agree_len : len b = len b'.
Proof. unfold len. now rewrite (proj1 Hagree). Qed.

Lemma agree_drop n : (k <= n)%nat -> drop n b = drop n b'.
Proof.
  intros Hn. replace n with (k + (n - k))%nat by lia.
  rewrite <- !drop_drop. now rewrite (proj2 Hagree).
Qed.

Lemma agree_lookup n : (k <= n)%nat -> b !! n = b' !! n.
Proof.
  intros Hn. rewrite <- (Nat.add_0_r n), <- !lookup_drop.
  now rewrite agree_drop.
Qed.

Lemma agree_index i : Z.of_nat k <= i -> index b i = index b' i.
Proof.
  intros Hi. unfold index. destruct (decide (0 <= i)); [|reflexivity].
  rewrite agree_lookup by lia. reflexivity.
Qed.

Lemma agree_slice lo hi : Z.of_nat k <= lo -> slice b lo hi = slice b' lo hi.
Proof.
  intros Hlo. unfold slice. rewrite agree_len.
  destruct (decide _); [|reflexivity]. rewrite agree_drop by lia. reflexivity.
Qed.

Lemma agree_readDeltaTime n o d :
  Z.of_nat k <= o -> readDeltaTime n b o d = readDeltaTime n b' o d.
Proof.
  revert o d. induction n as [|n IH]; intros o d Ho; [reflexivity|].
  cbn [readDeltaTime]. rewrite agree_index by exact Ho.
  apply obind_ext. intros a _. destruct (_ =? 0); [reflexivity|].
  apply IH. lia.
Qed.

Lemma agree_readCommandDelta header st :
  Z.of_nat k <= offset st ->
  readCommandDelta b header st = readCommandDelta b' header st.
Proof.
  intros Ho. unfold readCommandDelta. destruct (_ || _); [|reflexivity].
  now apply agree_readDeltaTime.
Qed.

Lemma agree_parseCommand header st :
  Z.of_nat k <= offset st ->
  parseCommand b header st = parseCommand b' header st.
Proof.
  intros Ho. unfold parseCommand.
  rewrite agree_readCommandDelta by exact Ho.
  apply obind_ext. intros [dv o1] Hd. cbn [fst snd].
  apply readCommandDelta_offset in Hd.
  assert (Ho1 : Z.of_nat k <= o1) by (destruct Hd as [[-> _]|Hd]; lia).
  rewrite agree_index by exact Ho1.
  apply obind_ext. intros sb _.
  set (o2 := if Z.land sb 128 =? 128 then o1 + 1 else o1).
  assert (Ho2 : Z.of_nat k <= o2) by (subst o2; destruct (_ =? _); lia).
  rewrite (agree_drop (Z.to_nat o2)) by lia.
  pose proof (scanSysEx_lower (drop (Z.to_nat o2) b') 0) as Hs.
  rewrite (agree_index (o2 + _)) by lia.
  apply obind_ext. intros dataLength _. rewrite agree_len.
  destruct (len b' <? _); [reflexivity|].
  rewrite agree_slice by exact Ho2. reflexivity.
Qed.

Lemma agree_parseLoop fuel header end_ st :
  Z.of_nat k <= offset st ->
  parseLoop fuel b header end_ st = parseLoop fuel b' header end_ st.
Proof.
  revert st. induction fuel as [|fuel IH]; intros st Ho; [reflexivity|].
  cbn [parseLoop]. destruct (offset st <? end_); [|reflexivity].
  rewrite agree_parseCommand by exact Ho.
  apply obind_ext. intros [st'|ret] Hp; [|reflexivity].
  apply IH. apply parseCommand_progress in Hp as (Hadv & _).
  destruct Hadv as [?|[-> _]]; lia.
Qed.

Lemma agree_parseMIDIList offset0 header :
  Z.of_nat k <= offset0 ->
  parseMIDIList b offset0 header = parseMIDIList b' offset0 header.
Proof. intros Ho. unfold parseMIDIList. now apply agree_parseLoop. Qed.

Lemma agree_nth n : (k <= n)%nat -> nth n b 0 = nth n b' 0.
Proof.
  intros Hn. rewrite !nth_lookup. now rewrite agree_lookup.
Qed.

Lemma agree_decodeListHeader :
  (k <= 12)%nat -> decodeListHeader b = decodeListHeader b'.
Proof.
  intros Hk. unfold decodeListHeader.
  rewrite agree_index by lia. rewrite agree_slice by lia. reflexivity.
Qed.

End Agreement.

Lemma decodeListHeader_start buffer hl :
  decodeListHeader buffer = Return hl -> 13 <= hl.2.
Proof.
  unfold decodeListHeader.
  destruct (index buffer 12) as [b12| |]; try discriminate. cbn [obind].
  destruct (0 <? Z.land b12 bigHeaderBit).
  - destruct (slice buffer 12 14) as [s| |]; try discriminate. cbn [obind].
    destruct (Uint16 s) as [v| |]; try discriminate. cbn [obind fst snd].
    intros [= <-]. cbn. lia.
  - cbn [obind fst snd]. intros [= <-]. cbn. lia.
Qed.

Lemma eraseIgnored_length b b' :
  eraseIgnored b = eraseIgnored b' -> length b = length b'.
Proof.
  intros H. apply (f_equal length) in H. unfold eraseIgnored in H.
  now rewrite !length_imap in H.
Qed.

Lemma eraseIgnored_lookup b b' (i : nat) :
  eraseIgnored b = eraseIgnored b' ->
  i <> 0%nat -> i <> 1%nat -> ~ (4 <= i <= 7)%nat -> b !! i = b' !! i.
Proof.
  intros H H0 H1 H47. apply (f_equal (fun l => l !! i)) in H.
  unfold eraseIgnored in H. rewrite !list_lookup_imap in H.
  destruct (b !! i), (b' !! i); cbn in H; try congruence.
  repeat case_decide; try lia; congruence.
Qed.

Lemma eraseIgnored_payloadType b b' :
  eraseIgnored b = eraseIgnored b' -> (2 <= length b)%nat ->
  wirePayloadType b = wirePayloadType b'.
Proof.
  intros H Hl. pose proof (eraseIgnored_length _ _ H) as Hlen.
  apply (f_equal (fun l => l !! 1%nat)) in H.
  unfold eraseIgnored in H. rewrite !list_lookup_imap in H.
  unfold wirePayloadType. rewrite !nth_lookup.
  destruct (lookup_lt_is_Some_2 b 1%nat ltac:(lia)) as [x Hx].
  destruct (lookup_lt_is_Some_2 b' 1%nat ltac:(lia)) as [x' Hx'].
  rewrite Hx, Hx' in *. cbn in H. cbn.
  repeat case_decide; try lia; congruence.
Qed.

Lemma eraseIgnored_agree b b' :
  eraseIgnored b = eraseIgnored b' -> agreeFrom 8 b b'.
Proof.
  intros H. split; [now apply eraseIgnored_length|].
  apply list_eq. intros i. rewrite !lookup_drop.
  apply eraseIgnored_lookup; [exact H|lia..].
Qed.


(** ** Big-endian fields *)

Lemma testbit_above v k n :
  0 <= v < 2 ^ k -> k <= n -> Z.testbit v n = false.
Proof.
  intros Hv Hn. destruct (Z.eq_dec v 0) as [->|Hne]; [apply Z.bits_0|].
  apply Z.bits_above_log2; [lia|].
  assert (Z.log2 v < k) by (apply Z.log2_lt_pow2; lia). lia.
Qed.

Lemma testbit_255 n : 0 <= n -> Z.testbit 255 n = (n <? 8).
Proof. intros H. change 255 with (Z.ones 8). apply Z.testbit_ones_nonneg; lia. Qed.

Ltac bits_field :=
  repeat first
    [ rewrite Z.lor_spec | rewrite Z.land_spec
    | rewrite Z.shiftl_spec by lia | rewrite Z.shiftr_spec by lia
    | rewrite testbit_255 by lia ].

Lemma put16_Uint16 v :
  is_uint16 v ->
  Z.lor (Z.land v 255) (Z.shiftl (Z.land (Z.shiftr v 8) 255) 8) = v.
Proof.
  intros Hv. apply Z.bits_inj'. intros n Hn.
  destruct (Z.lt_ge_cases n 8).
  - rewrite Z.lor_spec, Z.shiftl_spec_low, Z.land_spec, testbit_255 by lia.
    destruct (Z.ltb_spec n 8); [|lia]. now rewrite orb_false_r, andb_true_r.
  - bits_field. replace (n - 8 + 8) with n by lia.
    destruct (Z.ltb_spec n 8); [lia|]. rewrite andb_false_r. cbn [orb].
    destruct (Z.ltb_spec (n - 8) 8); [apply andb_true_r|].
    rewrite andb_false_r. symmetry. apply (testbit_above v 16); [exact Hv|lia].
Qed.

Lemma put32_Uint32 v :
  is_uint32 v ->
  Z.lor (Z.lor (Z.lor (Z.land v 255)
                      (Z.shiftl (Z.land (Z.shiftr v 8) 255) 8))
               (Z.shiftl (Z.land (Z.shiftr v 16) 255) 16))
        (Z.shiftl (Z.land (Z.shiftr v 24) 255) 24) = v.
Proof.
  intros Hv. apply Z.bits_inj'. intros n Hn.
  assert (Hhi : 32 <= n -> Z.testbit v n = false)
    by (intros; apply (testbit_above v 32); [exact Hv|lia]).
  rewrite !Z.lor_spec.
  assert (Hf : forall s, 0 <= s ->
             Z.testbit (Z.shiftl (Z.land (Z.shiftr v s) 255) s) n
             = Z.testbit v n && (s <=? n) && (n <? s + 8)).
  { intros s Hs. destruct (Z.lt_ge_cases n s).
    - rewrite Z.shiftl_spec_low by lia. destruct (Z.leb_spec s n); [lia|].
      now rewrite andb_false_r.
    - bits_field. replace (n - s + s) with n by lia.
      destruct (Z.leb_spec s n); [|lia].
      rewrite andb_true_r. f_equal.
      destruct (Z.ltb_spec (n - s) 8), (Z.ltb_spec n (s + 8)); (reflexivity || lia). }
  rewrite !Hf by lia. rewrite Z.land_spec, testbit_255 by lia.
  destruct (Z.testbit v n) eqn:E; cbn [andb orb]; [|reflexivity].
  destruct (Z.lt_ge_cases n 32) as [Hlt|Hge]; [|specialize (Hhi Hge); congruence].
  destruct (Z.ltb_spec n 8), (Z.leb_spec 8 n), (Z.ltb_spec n (8 + 8)),
    (Z.leb_spec 16 n), (Z.ltb_spec n (16 + 8)), (Z.leb_spec 24 n),
    (Z.ltb_spec n (24 + 8)); cbn; (reflexivity || lia).
Qed.

Section HeaderRoundTrip.
Variable timestampOf : Z -> Z -> Z.

Lemma encodeHeader_length m start :
  length (encodeHeader timestampOf m start) = 12%nat.
Proof. reflexivity. Qed.

Lemma encodeHeader_payloadType m start :
  wirePayloadType (encodeHeader timestampOf m start) = payloadType.
Proof. reflexivity. Qed.

Lemma encodeHeader_sequenceNumber m start tail :
  is_uint16 (SequenceNumber m) ->
  wireSequenceNumber (encodeHeader timestampOf m start ++ tail)
  = SequenceNumber m.
Proof. intros H. unfold wireSequenceNumber. cbn [encodeHeader app put16 put32 nth]. now apply put16_Uint16. Qed.

Lemma encodeHeader_SSRC m start tail :
  is_uint32 (SSRC m) ->
  wireSSRC (encodeHeader timestampOf m start ++ tail) = SSRC m.
Proof. intros H. unfold wireSSRC. cbn [encodeHeader app put16 put32 nth]. now apply put32_Uint32. Qed.

End HeaderRoundTrip.

(** ** Decoding what the encoder wrote *)

Lemma sysexData_shape data :
  sysexData data = true ->
  exists body, data = body ++ [0xf7]
               /\ Forall (fun b => Z.land b 0x80 = 0) body.
Proof.
  induction data as [|b data IH]; [discriminate|].
  cbn [sysexData]. destruct data as [|c data].
  - intros H. apply Z.eqb_eq in H as ->. exists []. split; [reflexivity|constructor].
  - intros H. apply andb_prop in H as [Hb H]. apply Z.eqb_eq in Hb.
    destruct (IH H) as (body & -> & Hbody).
    exists (b :: body). split; [reflexivity|]. now constructor.
Qed.

Lemma scanSysEx_body body post n :
  Forall (fun b => Z.land b 0x80 = 0) body ->
  scanSysEx (body ++ 0xf7 :: post) n = n + len body.
Proof.
  intros H. revert n. induction H as [|b body Hb _ IH]; intros n.
  - cbn [app scanSysEx]. change (0 <? Z.land 247 128) with true.
    cbn iota. rewrite len_nil. lia.
  - cbn [app scanSysEx]. rewrite Hb. cbn [Z.ltb Z.compare].
    rewrite IH, len_cons. lia.
Qed.

Lemma lastByte_snoc status body :
  lastByte (status :: body ++ [0xf7]) = 0xf7.
Proof.
  unfold lastByte. change (status :: body ++ [247]) with ((status :: body) ++ [247]).
  apply last_last.
Qed.

Lemma wellFormed_nonempty p : wellFormed p = true -> 1 <= len p.
Proof.
  destruct p; [discriminate|]. intros _. rewrite len_cons.
  pose proof (len_nonneg p). lia.
Qed.

(** One iteration on a well-formed command preceded by the delta-time
    [dt], or by nothing where no delta-time is due. *)
Lemma parseCommand_wellFormed pre dt p post header st :
  offset st = len pre ->
  wellFormed p = true ->
  (if (0 <? len (commands st)) || preceedingDeltaTime header
   then validDelta 4 dt = true else dt = []) ->
  parseCommand (pre ++ dt ++ p ++ post) header st
  = Return (inl {| offset := len pre + len dt + len p;
                   commands := commands st
                               ++ [ {| DeltaTime := Millisecond * varintValue dt;
                                       Payload := p |} ];
                   lastStatusByte := List.hd 0 p |}).
Proof.
  intros Ho Hwf Hdt. unfold parseCommand.
  assert (Hrd : readCommandDelta (pre ++ dt ++ p ++ post) header st
                = Return (varintValue dt, len pre + len dt)).
  { unfold readCommandDelta. destruct (_ || _).
    - rewrite Ho. unfold varintValue. apply readDeltaTime_valid;
        [exact Hdt|lia|simpl; lia].
    - subst dt. rewrite Ho. change (len (@nil Z)) with 0.
      rewrite Z.add_0_r. reflexivity. }
  rewrite Hrd. cbn [obind fst snd]. clear Hrd Hdt.
  destruct p as [|status data]; [discriminate|].
  cbn [wellFormed] in Hwf. apply andb_prop in Hwf as [Hst Hdata].
  unfold isStatus in Hst.
  (* the buffer as what is before the status byte, and after it *)
  rewrite (app_assoc pre dt). rewrite <- (len_app pre dt).
  set (pre1 := pre ++ dt). cbn [app].
  rewrite index_app_at. cbn [obind]. rewrite Hst.
  change (pre1 ++ status :: data ++ post) with (pre1 ++ [status] ++ data ++ post).
  rewrite (app_assoc pre1 [status]).
  replace (len pre1 + 1) with (len (pre1 ++ [status]))
    by (rewrite len_app, len_cons; change (len (@nil Z)) with 0; lia).
  set (pre2 := pre1 ++ [status]).
  rewrite drop_app_at.
  assert (Hlen2 : len pre1 + len (status :: data) = len pre2 + len data)
    by (subst pre2; rewrite len_app, !len_cons; change (len (@nil Z)) with 0; lia).
  rewrite Hlen2.
  pose proof (len_nonneg post) as Hpost. pose proof (len_nonneg data) as Hd0.
  destruct (status =? 240) eqn:Hf0.
  - (* System Exclusive *)
    apply sysexData_shape in Hdata as (body & -> & Hbody).
    apply Z.eqb_eq in Hf0. subst status.
    assert (Hscan : scanSysEx ((body ++ [247]) ++ post) 0 = len body)
      by (rewrite <- app_assoc; cbn [app]; rewrite scanSysEx_body by exact Hbody;
          lia).
    rewrite Hscan.
    assert (Hterm : index (pre2 ++ (body ++ [247]) ++ post)
                      (len pre2 + len body) = Return 247).
    { rewrite <- (app_assoc body [247] post). cbn [app].
      rewrite (app_assoc pre2 body), <- (len_app pre2 body).
      apply index_app_at. }
    rewrite Hterm. cbn [obind Z.eqb Pos.eqb negb].
    replace (len body + 1) with (len (body ++ [247]))
      by (rewrite len_app, len_cons; change (len (@nil Z)) with 0; lia).
    destruct (Z.ltb_spec (len (pre2 ++ (body ++ [247]) ++ post))
                (len pre2 + len (body ++ [247]))) as [Hlt|_].
    { rewrite !len_app in Hlt. lia. }
    destruct (Z.ltb_spec 0 (len (body ++ [247]))) as [_|Hle].
    2: { rewrite len_app, len_cons in Hle. pose proof (len_nonneg body).
         change (len (@nil Z)) with 0 in Hle. lia. }
    rewrite slice_app_at. cbn [obind fst snd app List.hd].
    rewrite lastByte_snoc.
    cbn [Z.eqb Pos.eqb andb negb]. reflexivity.
  - (* a command of the table *)
    apply Z.eqb_eq in Hdata. cbn [obind].
    destruct (Z.ltb_spec (len (pre2 ++ data ++ post))
                (len pre2 + midi.GetDataLength status)) as [Hlt|_].
    { rewrite !len_app in Hlt. lia. }
    destruct (Z.ltb_spec 0 (midi.GetDataLength status)) as [Hpos|Hle].
    + replace (midi.GetDataLength status) with (len data) by lia.
      rewrite slice_app_at. cbn [obind fst snd app List.hd].
      rewrite Hf0. cbn [andb negb]. reflexivity.
    + assert (data = []) as ->.
      { destruct data as [|d data']; [reflexivity|]. exfalso.
        rewrite len_cons in Hdata. pose proof (len_nonneg data'). lia. }
      cbn [obind fst snd app List.hd]. rewrite Hf0. cbn [andb negb].
      change (len (@nil Z)) with 0. rewrite Z.add_0_r. reflexivity.
Qed.

Lemma parseLoop_done fuel buffer header end_ st :
  end_ <= offset st ->
  parseLoop fuel buffer header end_ st = Return (commands st, None).
Proof.
  intros H. destruct fuel; cbn [parseLoop];
    (destruct (Z.ltb_spec (offset st) end_); [lia|reflexivity]).
Qed.

Lemma encodePayload_wellFormed p :
  wellFormed p = true -> encodePayload p = p.
Proof.
  intros H. apply wellFormed_nonempty in H. unfold encodePayload.
  destruct (Z.eqb_spec (len p) 0); [lia|reflexivity].
Qed.

Section RoundTrip.
Variable timestampOf : Z -> Z -> Z.
Variable EncodeDeltaTime : Z -> Z -> Z -> list Z.
Variables ts start : Z.

Let wf (mc : MIDICommand) : Prop := wellFormed (Payload mc) = true.
Let vd (mc : MIDICommand) : Prop :=
  validDelta 4 (EncodeDeltaTime ts start (DeltaTime mc)) = true.
Let later (cmds : list MIDICommand) : list Z :=
  concat (map (encodeLater EncodeDeltaTime ts start) cmds).

(** The loop on the commands after the first: a delta-time is due before
    each. *)
Lemma parseLoop_later cmds pre st fuel header :
  Forall wf cmds -> Forall vd cmds ->
  offset st = len pre ->
  (0 <? len (commands st)) || preceedingDeltaTime header = true ->
  (length cmds <= fuel)%nat ->
  exists cmds',
    parseLoop fuel (pre ++ later cmds) header (len pre + len (later cmds)) st
    = Return (commands st ++ cmds', None)
    /\ map Payload cmds' = map Payload cmds.
Proof.
  revert pre st fuel.
  induction cmds as [|mc cmds IH]; intros pre st fuel Hwf Hvd Ho Hdue Hf.
  - exists []. rewrite parseLoop_done, app_nil_r; [auto|].
    subst later. cbn. change (len (@nil Z)) with 0. lia.
  - destruct fuel as [|fuel]; [simpl in Hf; lia|].
    inversion Hwf as [|? ? Hwf1 Hwf2]; subst.
    inversion Hvd as [|? ? Hvd1 Hvd2]; subst.
    unfold wf in Hwf1. unfold vd in Hvd1.
    pose proof (wellFormed_nonempty _ Hwf1) as Hp1.
    set (dt := EncodeDeltaTime ts start (DeltaTime mc)) in *.
    assert (Hbuf : later (mc :: cmds) = dt ++ Payload mc ++ later cmds).
    { subst later. cbn [map concat]. unfold encodeLater at 1.
      rewrite encodePayload_wellFormed by exact Hwf1.
      now rewrite <- app_assoc. }
    rewrite Hbuf. cbn [parseLoop].
    pose proof (len_nonneg dt). pose proof (len_nonneg (later cmds)).
    destruct (Z.ltb_spec (offset st)
                (len pre + len (dt ++ Payload mc ++ later cmds))) as [_|Hge].
    2: { rewrite !len_app in Hge. lia. }
    rewrite (parseCommand_wellFormed pre dt (Payload mc) (later cmds) header st)
      by (try rewrite Hdue; assumption).
    cbn [obind].
    set (st' := {| offset := _; commands := _; lastStatusByte := _ |}).
    destruct (IH (pre ++ dt ++ Payload mc) st' fuel Hwf2 Hvd2)
      as (cmds' & Hloop & Hmap).
    + subst st'. cbn [offset]. rewrite !len_app. lia.
    + subst st'. cbn [commands]. rewrite len_app, len_cons.
      pose proof (len_nonneg (commands st)).
      change (len (@nil MIDICommand)) with 0.
      destruct (Z.ltb_spec 0 (len (commands st) + (1 + 0))); [reflexivity|lia].
    + simpl in Hf. lia.
    + rewrite <- !app_assoc in Hloop.
      replace (len (pre ++ dt ++ Payload mc) + len (later cmds))
        with (len pre + len (dt ++ Payload mc ++ later cmds)) in Hloop
        by (rewrite !len_app; lia).
      rewrite Hloop. subst st'. cbn [commands]. rewrite <- app_assoc.
      eexists. split; [reflexivity|]. cbn [app map Payload]. now rewrite Hmap.
Qed.

(** The loop on a whole list body: the first command has a delta-time
    where the Z flag says so. *)
Lemma parseLoop_body pre header mc cmds fuel :
  Forall wf (mc :: cmds) -> Forall vd (mc :: cmds) ->
  preceedingDeltaTime header = (0 <? DeltaTime mc) ->
  (S (length cmds) <= fuel)%nat ->
  let body :=
    (if 0 <? DeltaTime mc then EncodeDeltaTime ts start (DeltaTime mc)
     else []) ++ encodePayload (Payload mc) ++ later cmds in
  exists cmds',
    parseLoop fuel (pre ++ body) header (len pre + len body)
      {| offset := len pre; commands := []; lastStatusByte := 0 |}
    = Return (cmds', None)
    /\ map Payload cmds' = map Payload (mc :: cmds).
Proof.
  intros Hwf Hvd Hz Hf body.
  destruct fuel as [|fuel]; [lia|].
  inversion Hwf as [|? ? Hwf1 Hwf2]; subst.
  inversion Hvd as [|? ? Hvd1 Hvd2]; subst.
  unfold wf in Hwf1. unfold vd in Hvd1.
  pose proof (wellFormed_nonempty _ Hwf1) as Hp1.
  subst body. rewrite encodePayload_wellFormed by exact Hwf1.
  set (dt := if 0 <? DeltaTime mc
             then EncodeDeltaTime ts start (DeltaTime mc) else []).
  cbn [parseLoop offset].
  pose proof (len_nonneg dt). pose proof (len_nonneg (later cmds)).
  destruct (Z.ltb_spec (len pre)
              (len pre + len (dt ++ Payload mc ++ later cmds))) as [_|Hge].
  2: { rewrite !len_app in Hge. lia. }
  rewrite (parseCommand_wellFormed pre dt (Payload mc) (later cmds) header).
  2: reflexivity. 2: exact Hwf1.
  2: { cbn [commands]. rewrite Hz. subst dt.
       change (0 <? len (@nil MIDICommand)) with false. cbn [orb].
       destruct (0 <? DeltaTime mc); [exact Hvd1|reflexivity]. }
  cbn [obind commands app].
  set (st' := {| offset := _; commands := _; lastStatusByte := _ |}).
  destruct (parseLoop_later cmds (pre ++ dt ++ Payload mc) st' fuel header
              Hwf2 Hvd2) as (cmds' & Hloop & Hmap).
  - subst st'. cbn [offset]. rewrite !len_app. lia.
  - reflexivity.
  - lia.
  - rewrite <- !app_assoc in Hloop.
    replace (len (pre ++ dt ++ Payload mc) + len (later cmds))
      with (len pre + len (dt ++ Payload mc ++ later cmds)) in Hloop
      by (rewrite !len_app; lia).
    rewrite Hloop. subst st'. cbn [commands].
    eexists. split; [reflexivity|]. cbn [app map Payload]. now rewrite Hmap.
Qed.

End RoundTrip.

(** The list header that the encoder writes for a body of [n] octets, read
    back. *)
Lemma decodeListHeader_encoded h flags body :
  length h = 12%nat -> flags = 0 \/ flags = zeroDeltaBit ->
  len body <= 4095 ->
  let n := len body in
  let written :=
    if 15 <? n then
      [Z.lor (Z.lor flags bigHeaderBit)
             (Z.land (toByte (Z.shiftr n 8)) lenMask); toByte n]
    else [Z.lor flags (Z.land (toByte n) lenMask)] in
  exists hdr,
    decodeListHeader (h ++ written ++ body) = Return (hdr, len (h ++ written))
    /\ Len hdr = n
    /\ preceedingDeltaTime hdr = (0 <? flags).
Proof.
  intros Hl Hf Hn n written.
  assert (H12 : len h = 12) by (unfold len; rewrite Hl; reflexivity).
  pose proof (len_nonneg body) as H0.
  pose proof (header_octets flags n Hf ltac:(subst n; lia)) as Hok.
  unfold header_octets_ok in Hok. unfold decodeListHeader.
  rewrite <- H12. subst written.
  destruct (Z.ltb_spec 15 n) as [Hbig|Hsmall].
  - destruct (Z.leb_spec n 15) as [?|_]; [lia|].
    apply andb_prop in Hok as [Hok H5]. apply andb_prop in Hok as [Hok H4].
    apply andb_prop in Hok as [Hok H3]. apply andb_prop in Hok as [H1 H2].
    apply Z.eqb_eq in H1, H2, H3, H4, H5. rewrite H1, H2.
    cbn [app]. rewrite index_app_at. cbn [obind]. rewrite H3.
    change (0 <? bigHeaderBit) with true. cbn iota.
    change (h ++ extendedOctet flags n :: n mod 256 :: body)
      with (h ++ [extendedOctet flags n; n mod 256] ++ body).
    replace (len h + 2) with (len h + len [extendedOctet flags n; n mod 256])
      by reflexivity.
    replace 14 with (len h + len [extendedOctet flags n; n mod 256])
      by (rewrite H12; reflexivity).
    rewrite slice_app_at. cbn [obind].
    change (Uint16 [extendedOctet flags n; n mod 256])
      with (Return (Z.lor (n mod 256) (Z.shiftl (extendedOctet flags n) 8))).
    cbn [obind fst snd]. rewrite H4, H5.
    eexists. split; [|split].
    1: { apply f_equal. apply f_equal2; [reflexivity|].
         rewrite len_app, ?H12. reflexivity. }
    all: reflexivity.
  - destruct (Z.leb_spec n 15) as [_|?]; [|lia].
    apply andb_prop in Hok as [Hok H4]. apply andb_prop in Hok as [Hok H3].
    apply andb_prop in Hok as [H1 H2].
    apply Z.eqb_eq in H1, H2, H3, H4. rewrite H1.
    cbn [app]. rewrite index_app_at. cbn [obind]. rewrite H2.
    change (0 <? 0) with false. cbn iota. cbn [obind fst snd].
    rewrite H3, H4.
    eexists. split; [|split].
    1: { apply f_equal. apply f_equal2; [reflexivity|].
         rewrite len_app, ?H12. reflexivity. }
    all: reflexivity.
Qed.

Section RoundTripTheorem.
Variable timestampOf : Z -> Z -> Z.
Variable EncodeDeltaTime : Z -> Z -> Z -> list Z.

(** C1, as the code has it. Let [m] be a message with a sequence number
    and an SSRC in the range of their types and a non-empty list of
    commands, each with a payload that is one complete command (a status
    byte with the data bytes that the command table counts for it, or a
    System-Exclusive command closed by [f7]); let the delta-time encoder
    write, for each, a delta-time of one to four octets as the decoder
    reads it; let the list body be of at most 4095 octets. Decoding the
    encoding of [m] returns, with no error, a message with the sequence
    number and the SSRC of [m] and, command for command, the payloads of
    [m]. *)
Theorem Decode_Encode_roundtrip (now start : Z) (m : MIDIMessage) :
  is_uint16 (SequenceNumber m) ->
  is_uint32 (SSRC m) ->
  Commands (MsgCommands m) <> [] ->
  Forall (fun mc => wellFormed (Payload mc) = true)
         (Commands (MsgCommands m)) ->
  Forall (fun mc =>
            validDelta 4 (EncodeDeltaTime (Timestamp (MsgCommands m)) start
                            (DeltaTime mc)) = true)
         (Commands (MsgCommands m)) ->
  len (listBody EncodeDeltaTime (MsgCommands m) start) <= 4095 ->
  exists m',
    Decode now (Encode timestampOf EncodeDeltaTime m start)
    = Return (m', None)
    /\ SequenceNumber m' = SequenceNumber m
    /\ SSRC m' = SSRC m
    /\ map Payload (Commands (MsgCommands m'))
       = map Payload (Commands (MsgCommands m)).
Proof.
  intros H16 H32 Hne Hwf Hvd Hlen. unfold Encode.
  set (h := encodeHeader timestampOf m start).
  rewrite (Decode_valid_header now h) by reflexivity.
  rewrite encodeMIDICommands_nonempty by exact Hne.
  destruct (Z.ltb_spec 4095 (len (listBody EncodeDeltaTime (MsgCommands m) start)))
    as [?|_]; [lia|].
  pose proof (listFlags_cases EncodeDeltaTime (MsgCommands m) start) as Hfl.
  destruct (decodeListHeader_encoded h _ _ eq_refl Hfl Hlen)
    as (hdr & Hdec & HLen & HZ).
  cbv zeta in Hdec. rewrite Hdec. cbn [obind fst snd].
  set (written := if 15 <? _ then _ else _) in *.
  unfold parseMIDIList. rewrite HLen.
  (* the body, by its first command *)
  destruct (Commands (MsgCommands m)) as [|mc cmds] eqn:Hcmds; [congruence|].
  assert (Hbody : listBody EncodeDeltaTime (MsgCommands m) start
                  = (if 0 <? DeltaTime mc
                     then EncodeDeltaTime (Timestamp (MsgCommands m)) start
                            (DeltaTime mc) else [])
                    ++ encodePayload (Payload mc)
                    ++ concat (map (encodeLater EncodeDeltaTime
                                      (Timestamp (MsgCommands m)) start) cmds))
    by (unfold listBody; rewrite Hcmds, encodeCommands_first; reflexivity).
  assert (HZ' : preceedingDeltaTime hdr = (0 <? DeltaTime mc)).
  { rewrite HZ. unfold listFlags. rewrite Hcmds, encodeCommands_first.
    cbn [fst]. destruct (0 <? DeltaTime mc); reflexivity. }
  set (body := listBody EncodeDeltaTime (MsgCommands m) start) in *.
  rewrite (app_assoc h written body).
  set (st0 := {| offset := _; commands := _; lastStatusByte := _ |}).
  set (fuel := parseFuel hdr).
  (* with fuel for every command the loop returns the payloads *)
  destruct (parseLoop_body EncodeDeltaTime (Timestamp (MsgCommands m)) start
              (h ++ written) hdr mc cmds (Nat.max fuel (S (length cmds)))
              Hwf Hvd HZ' ltac:(lia)) as (cmds' & Hloop & Hmap).
  cbv zeta in Hloop. rewrite <- Hbody in Hloop. fold st0 in Hloop.
  (* and the fuel of the code is enough *)
  assert (Hrun : parseLoop fuel ((h ++ written) ++ body) hdr
                   (len (h ++ written) + len body) st0
                 = Return (cmds', None)).
  { rewrite <- Hloop. symmetry. apply parseLoop_fuel_mono; [lia|].
    apply parseLoop_fuel_enough. subst fuel st0.
    unfold loopMeasure, parseFuel. cbn [offset commands]. rewrite HLen.
    replace (len (h ++ written) + len body - len (h ++ written))
      with (len body) by lia. lia. }
  rewrite Hrun. cbn [obind fst].
  eexists. split; [reflexivity|]. cbn [SequenceNumber SSRC MsgCommands Commands].
  split; [|split].
  - rewrite <- app_assoc. apply encodeHeader_sequenceNumber, H16.
  - rewrite <- app_assoc. apply encodeHeader_SSRC, H32.
  - exact Hmap.
Qed.

End RoundTripTheorem.

(** A Note-On and a System-Exclusive command 200 ms later, through the
    example encoders. *)
Lemma Decode_Encode_roundtrip_witness :
  exists m',
    Decode 0 (Encode exampleTimestampOf exampleEncodeDeltaTime
                exampleMessage 0)
    = Return (m', None)
    /\ SequenceNumber m' = 0x1234
    /\ SSRC m' = 0xdeadbeef
    /\ map Payload (Commands (MsgCommands m'))
       = [ [0x90; 0x40; 0x7f]; [0xf0; 0x01; 0x02; 0xf7] ].
Proof.
  apply (Decode_Encode_roundtrip exampleTimestampOf exampleEncodeDeltaTime
           0 0 exampleMessage).
  - unfold is_uint16. cbn. lia.
  - unfold is_uint32. cbn. lia.
  - discriminate.
  - repeat constructor.
  - repeat constructor.
  - vm_compute. discriminate.
Defined.

(** The claim as the spec has it fails: [exampleIncomplete] has one command
    and a list body of two octets, and whatever the timestamp collaborator
    does, decoding its encoding gives no command. *)
Lemma roundtrip_loses_incomplete_command :
  length (Commands (MsgCommands exampleIncomplete)) = 1%nat
  /\ (forall timestampOf EncodeDeltaTime now start,
        len (listBody EncodeDeltaTime (MsgCommands exampleIncomplete) start)
        = 2
        /\ decodedCommands
             (Decode now (Encode timestampOf EncodeDeltaTime
                            exampleIncomplete start))
           = Return []).
Proof.
  split; [reflexivity|]. intros timestampOf EncodeDeltaTime now start.
  split; [reflexivity|].
  change (Encode timestampOf EncodeDeltaTime exampleIncomplete start)
    with (encodeHeader timestampOf exampleIncomplete start
            ++ [0x02; 0x90; 0x40]).
  rewrite decodedCommands_valid_header by reflexivity.
  vm_compute. reflexivity.
Qed.

Lemma scanSysEx_stop body t post n :
  Forall (fun b => Z.land b 0x80 = 0) body ->
  Z.land t 0x80 = 0x80 ->
  scanSysEx (body ++ t :: post) n = n + len body.
Proof.
  intros H Ht. revert n. induction H as [|b body Hb _ IH]; intros n.
  - cbn [app scanSysEx]. rewrite Ht. change (0 <? 128) with true.
    cbn iota. rewrite len_nil. lia.
  - cbn [app scanSysEx]. rewrite Hb. cbn [Z.ltb Z.compare].
    rewrite IH, len_cons. lia.
Qed.

Lemma lastByte_unterminated body :
  Forall (fun b => Z.land b 0x80 = 0) body ->
  (lastByte (0xf0 :: body) =? 0xf7) = false.
Proof.
  intros H. induction body as [|b body _] using rev_ind; [reflexivity|].
  unfold lastByte. change (240 :: body ++ [b]) with ((240 :: body) ++ [b]).
  rewrite last_last. apply Forall_app in H as [_ Hb].
  inversion Hb as [|? ? Hb1 _]; subst.
  destruct (Z.eqb_spec b 247) as [->|]; [discriminate Hb1|reflexivity].
Qed.

(** One iteration on a System-Exclusive command that is not closed: its
    data bytes [body] are followed by [t], an octet with the high bit set
    other than [f7]. Nothing is emitted, and the offset is left at [t]. *)
Lemma parseCommand_unterminated pre dt body t post header st :
  offset st = len pre ->
  Forall (fun b => Z.land b 0x80 = 0) body ->
  Z.land t 0x80 = 0x80 -> t <> 0xf7 ->
  (if (0 <? len (commands st)) || preceedingDeltaTime header
   then validDelta 4 dt = true else dt = []) ->
  parseCommand (pre ++ dt ++ [0xf0] ++ body ++ [t] ++ post) header st
  = Return (inl {| offset := len pre + len dt + 1 + len body;
                   commands := commands st;
                   lastStatusByte := 0xf0 |}).
Proof.
  intros Ho Hbody Ht Hne Hdt. unfold parseCommand.
  assert (Hrd : readCommandDelta (pre ++ dt ++ [240] ++ body ++ [t] ++ post)
                  header st
                = Return (varintValue dt, len pre + len dt)).
  { unfold readCommandDelta. destruct (_ || _).
    - rewrite Ho. unfold varintValue.
      apply (readDeltaTime_valid 4 pre dt ([240] ++ body ++ [t] ++ post));
        [exact Hdt|lia|simpl; lia].
    - subst dt. rewrite Ho. change (len (@nil Z)) with 0.
      rewrite Z.add_0_r. reflexivity. }
  rewrite Hrd. cbn [obind fst snd]. clear Hrd Hdt.
  rewrite (app_assoc pre dt). rewrite <- (len_app pre dt).
  set (pre1 := pre ++ dt). cbn [app].
  rewrite index_app_at. cbn [obind].
  change (Z.land 240 128 =? 128) with true. cbn iota.
  change (pre1 ++ 240 :: body ++ t :: post)
    with (pre1 ++ [240] ++ body ++ t :: post).
  rewrite (app_assoc pre1 [240]).
  replace (len pre1 + 1) with (len (pre1 ++ [240]))
    by (rewrite len_app, len_cons; change (len (@nil Z)) with 0; lia).
  set (pre2 := pre1 ++ [240]).
  rewrite drop_app_at. change (240 =? 240) with true. cbn iota.
  rewrite scanSysEx_stop by assumption. rewrite Z.add_0_l.
  assert (Hterm : index (pre2 ++ body ++ t :: post) (len pre2 + len body)
                  = Return t).
  { rewrite (app_assoc pre2 body), <- (len_app pre2 body).
    apply index_app_at. }
  rewrite Hterm. cbn [obind].
  destruct (Z.eqb_spec t 247) as [?|_]; [contradiction|]. cbn [negb].
  replace (len body - 1 + 1) with (len body) by lia.
  pose proof (len_nonneg body) as Hb0. pose proof (len_nonneg post).
  destruct (Z.ltb_spec (len (pre2 ++ body ++ t :: post))
              (len pre2 + len body)) as [Hlt|_].
  { rewrite !len_app, len_cons in Hlt. lia. }
  assert (Hoff : len pre2 = len pre + len dt + 1).
  { subst pre2 pre1. rewrite !len_app, len_cons.
    change (len (@nil Z)) with 0. lia. }
  destruct (Z.ltb_spec 0 (len body)) as [Hpos|Hle].
  - change (pre2 ++ body ++ t :: post) with (pre2 ++ body ++ (t :: post)).
    rewrite slice_app_at. cbn [obind fst snd app List.hd].
    rewrite lastByte_unterminated by exact Hbody.
    change (240 =? 240) with true. cbn [andb negb].
    rewrite Hoff. reflexivity.
  - assert (body = []) as ->.
    { destruct body as [|d body']; [reflexivity|]. exfalso.
      rewrite len_cons in Hle. pose proof (len_nonneg body'). lia. }
    cbn [obind fst snd app List.hd].
    change (lastByte [240] =? 247) with false.
    change (240 =? 240) with true. cbn [andb negb].
    rewrite Hoff. change (len (@nil Z)) with 0. rewrite Z.add_0_r.
    reflexivity.
Qed.



(** * Further properties of the code *)

(** ** The command table *)

Lemma dataLength_checked :
  forallb (fun b => midi.GetDataLength b =? dataLengthByRange b)
          (map Z.of_nat (seq 0 256)) = true.
Proof. vm_compute. reflexivity. Qed.

(** X1. For an octet, [GetDataLength] is 0 on data bytes, goes by the high
    nibble on channel statuses (2, but 1 for program change and channel
    aftertouch), and on system statuses is the entry of the table where
    there is one; the statuses without an entry, [f4 f5 f7 f9 fd], fall
    back to the entry of [f0] and get its -1. *)
Theorem GetDataLength_by_range (b : Z) :
  0 <= b < 256 -> midi.GetDataLength b = dataLengthByRange b.
Proof.
  intros Hb. pose proof dataLength_checked as H.
  rewrite forallb_forall in H. apply Z.eqb_eq, H.
  apply in_map_iff. exists (Z.to_nat b). split; [lia|]. apply in_seq. lia.
Qed.

Lemma GetDataLength_by_range_witness :
  midi.GetDataLength 0x9a = 2 /\ midi.GetDataLength 0xf7 = -1.
Proof.
  split.
  - apply (GetDataLength_by_range 0x9a). lia.
  - apply (GetDataLength_by_range 0xf7). lia.
Defined.

(** ** What the decoder emits *)

Lemma slice_Return buffer lo hi s :
  slice buffer lo hi = Return s ->
  0 <= lo /\ lo <= hi /\ hi <= len buffer
  /\ s = take (Z.to_nat (hi - lo)) (drop (Z.to_nat lo) buffer)
  /\ len s = hi - lo.
Proof.
  unfold slice. destruct (decide _) as [(H0 & H1 & H2)|]; [|discriminate].
  intros [= <-]. repeat split; try assumption.
  unfold len in *. rewrite length_take, length_drop. lia.
Qed.

Lemma scanSysEx_clear rest n :
  Forall (fun b => Z.land b 0x80 = 0)
         (take (Z.to_nat (scanSysEx rest n - n)) rest).
Proof.
  revert n. induction rest as [|b rest IH]; intros n.
  - rewrite take_nil. constructor.
  - cbn [scanSysEx]. destruct (0 <? Z.land b 128) eqn:E.
    + replace (n - n) with 0 by lia. constructor.
    + pose proof (scanSysEx_lower rest (n + 1)).
      replace (Z.to_nat (scanSysEx rest (n + 1) - n))
        with (S (Z.to_nat (scanSysEx rest (n + 1) - (n + 1)))) by lia.
      cbn [take]. constructor; [|apply IH].
      destruct (land_128_cases b) as [Hb|Hb]; [exact Hb|].
      rewrite Hb in E. discriminate.
Qed.

Lemma sysexData_intro body :
  Forall (fun b => Z.land b 0x80 = 0) body ->
  sysexData (body ++ [0xf7]) = true.
Proof.
  induction 1 as [|b body Hb _ IH]; [reflexivity|].
  cbn [app sysexData]. destruct (body ++ [247]) eqn:E.
  - destruct body; discriminate.
  - rewrite Hb. exact IH.
Qed.

Lemma readDeltaTime_bound k buffer o d v o' :
  (k <= 4)%nat -> 0 <= d < 128 ^ (4 - Z.of_nat k) ->
  readDeltaTime k buffer o d = Return (v, o') ->
  0 <= v < 128 ^ 4.
Proof.
  revert o d. induction k as [|k IH]; intros o d Hk Hd.
  - cbn. intros [= <- <-]. exact Hd.
  - cbn [readDeltaTime].
    destruct (index buffer o) as [c| |]; try discriminate. cbn [obind].
    assert (Hsh : Z.shiftl d 7 mod 2 ^ 32 = d * 128).
    { rewrite Z.shiftl_mul_pow2 by lia. change (2 ^ 7) with 128.
      apply Z.mod_small.
      assert (128 ^ (4 - Z.of_nat (S k)) <= 128 ^ 3)
        by (apply Z.pow_le_mono_r; lia).
      change (128 ^ 3) with 2097152 in *. lia. }
    rewrite Hsh. unfold deltaTimeMask. rewrite lor_low7.
    fold (varintStep d c).
    assert (Hstep : 0 <= varintStep d c < 128 ^ (4 - Z.of_nat k)).
    { replace (4 - Z.of_nat k) with (4 - Z.of_nat (S k) + 1) by lia.
      apply varintStep_bound; [lia|exact Hd]. }
    assert (Hle : 128 ^ (4 - Z.of_nat k) <= 128 ^ 4)
      by (apply Z.pow_le_mono_r; lia).
    destruct (_ =? 0).
    + intros [= <- <-]. lia.
    + apply IH; [lia|exact Hstep].
Qed.

Lemma readCommandDelta_bound buffer header st v o :
  readCommandDelta buffer header st = Return (v, o) -> 0 <= v < 2 ^ 28.
Proof.
  unfold readCommandDelta. destruct (_ || _).
  - intros H. apply readDeltaTime_bound in H; [exact H|lia|cbn; lia].
  - intros [= <- <-]. lia.
Qed.

(** One iteration emits at most one command, and such a one as
    [emittedCommand] says; the last status byte stays a status byte, or
    the zero it is at the start. *)
Lemma parseCommand_emits buffer header st st' :
  parseCommand buffer header st = Return (inl st') ->
  lastStatusByte st = 0 \/ isStatus (lastStatusByte st) = true ->
  (lastStatusByte st' = 0 \/ isStatus (lastStatusByte st') = true)
  /\ (commands st' = commands st
      \/ exists c, commands st' = commands st ++ [c] /\ emittedCommand c).
Proof.
  unfold parseCommand. intros H Hlast.
  destruct (readCommandDelta buffer header st) as [[dv o1]| |] eqn:Hd;
    try discriminate.
  apply readCommandDelta_bound in Hd. cbn [obind fst snd] in H.
  destruct (index buffer o1) as [sb| |] eqn:Hi; try discriminate.
  apply index_Return in Hi as [Ho1 Hdrop]. cbn [obind] in H.
  fold (isStatus sb) in H.
  set (status := if isStatus sb then sb else lastStatusByte st) in *.
  set (o2 := if isStatus sb then o1 + 1 else o1) in *.
  assert (Ho2 : 0 <= o2) by (subst o2; destruct (isStatus sb); lia).
  assert (Hstatus : status = 0 \/ isStatus status = true).
  { subst status. destruct (isStatus sb) eqn:E; [now right|exact Hlast]. }
  match type of H with
  | obind ?dl _ = _ => destruct dl as [dataLength| |] eqn:Hdl; try discriminate
  end.
  cbn [obind] in H.
  destruct (len buffer <? o2 + dataLength) eqn:Hlen; [discriminate|].
  match type of H with
  | obind ?pl _ = _ => destruct pl as [[payload o3]| |] eqn:Hpl; try discriminate
  end.
  cbn [obind fst snd] in H.
  destruct (negb _) eqn:Hk; injection H as <-; cbn [commands lastStatusByte];
    (split; [exact Hstatus|]); [|now left].
  right. eexists. split; [reflexivity|].
  split; [|exists dv; split; [exact Hd|reflexivity]].
  cbn [Payload].
  (* the payload *)
  assert (Hpay : exists data,
             payload = status :: data
             /\ (0 < dataLength ->
                 data = take (Z.to_nat dataLength) (drop (Z.to_nat o2) buffer)
                 /\ len data = dataLength)
             /\ (dataLength <= 0 -> data = [])).
  { destruct (Z.ltb_spec 0 dataLength).
    - destruct (slice buffer o2 (o2 + dataLength)) as [data| |] eqn:Hs;
        try discriminate.
      cbn [obind] in Hpl. injection Hpl as <- <-.
      apply slice_Return in Hs as (_ & _ & _ & Hs & Hl).
      replace (o2 + dataLength - o2) with dataLength in * by lia.
      exists data. repeat split; (assumption || lia).
    - injection Hpl as <- <-. exists []. repeat split; (reflexivity || lia). }
  destruct Hpay as (data & -> & Hpos & Hnonpos).
  cbn [List.hd] in Hk.
  destruct (Z.eqb_spec status 240) as [Hsx|Hnsx].
  - (* System Exclusive *)
    cbn [andb] in Hk. apply negb_true_iff, negb_false_iff, Z.eqb_eq in Hk.
    set (rest := drop (Z.to_nat o2) buffer) in *.
    pose proof (scanSysEx_lower rest 0) as Hs0.
    pose proof (scanSysEx_clear rest 0) as Hclear.
    rewrite Z.sub_0_r in Hclear.
    destruct (index buffer (o2 + scanSysEx rest 0)) as [t| |] eqn:Ht;
      try discriminate.
    cbn [obind] in Hdl. injection Hdl as <-.
    apply index_Return in Ht as [_ Ht].
    replace (Z.to_nat (o2 + scanSysEx rest 0))
      with (Z.to_nat o2 + Z.to_nat (scanSysEx rest 0))%nat in Ht by lia.
    rewrite <- drop_drop in Ht. fold rest in Ht.
    assert (Hlook : rest !! Z.to_nat (scanSysEx rest 0) = Some t).
    { rewrite <- (Nat.add_0_r (Z.to_nat _)), <- lookup_drop, Ht. reflexivity. }
    right. rewrite Hsx in *. cbn [wellFormed]. change (isStatus 240) with true.
    cbn [andb Z.eqb Pos.eqb].
    destruct (Z.eqb_spec t 247) as [->|Hne]; cbn [negb] in *.
    + destruct Hpos as [-> _]; [lia|].
      replace (Z.to_nat (scanSysEx rest 0 + 1))
        with (S (Z.to_nat (scanSysEx rest 0))) by lia.
      rewrite (take_S_r _ _ _ Hlook). now apply sysexData_intro.
    + exfalso. replace (scanSysEx rest 0 - 1 + 1) with (scanSysEx rest 0)
        in * by lia.
      assert (Hb : Forall (fun b => Z.land b 128 = 0) data).
      { destruct (Z.lt_ge_cases 0 (scanSysEx rest 0)) as [Hp|Hp].
        - destruct (Hpos Hp) as [-> _]. exact Hclear.
        - rewrite Hnonpos by lia. constructor. }
      pose proof (lastByte_unterminated data Hb) as Hu.
      rewrite Hk in Hu. discriminate.
  - (* a command of the table *)
    injection Hdl as <-.
    destruct Hstatus as [H0|Hs].
    + left. rewrite H0 in *. change (midi.GetDataLength 0) with 0 in *.
      now rewrite Hnonpos by lia.
    + right. cbn [wellFormed]. rewrite Hs. cbn [andb].
      destruct (Z.eqb_spec status 240); [contradiction|].
      apply Z.eqb_eq.
      destruct (Z.lt_ge_cases 0 (midi.GetDataLength status)) as [Hp|Hp].
      * destruct (Hpos Hp) as [_ ->]. lia.
      * rewrite Hnonpos by lia. change (len (@nil Z)) with 0. lia.
Qed.

Lemma parseCommand_appends buffer header st st' :
  parseCommand buffer header st = Return (inl st') ->
  lastStatusByte st = 0 \/ isStatus (lastStatusByte st) = true ->
  (length (commands st') <= S (length (commands st)))%nat
  /\ (Forall emittedCommand (commands st) ->
      Forall emittedCommand (commands st')).
Proof.
  intros H Hl. destruct (parseCommand_emits _ _ _ _ H Hl) as [_ [->|(c & -> & Hc)]].
  - split; [lia|auto].
  - split; [rewrite length_app; simpl; lia|].
    intros Hf. apply Forall_app. split; [exact Hf|now constructor].
Qed.

(** The loop returns commands as [emittedCommand] says, and no more of
    them than octets it could read, one apart, whether by the end of the
    list or by the end of the buffer. *)
Lemma parseLoop_emits fuel buffer header end_ st cmds e :
  parseLoop fuel buffer header end_ st = Return (cmds, e) ->
  lastStatusByte st = 0 \/ isStatus (lastStatusByte st) = true ->
  Forall emittedCommand (commands st) ->
  Forall emittedCommand cmds
  /\ (length cmds
      <= length (commands st) + Z.to_nat (end_ - offset st)
         + match commands st with [] => 1 | _ => 0 end)%nat
  /\ (length cmds
      <= length (commands st) + Z.to_nat (len buffer - offset st)
         + match commands st with [] => 1 | _ => 0 end)%nat.
Proof.
  revert st. induction fuel as [|fuel IH]; intros st; cbn [parseLoop].
  - destruct (offset st <? end_); [discriminate|].
    intros [= <- <-] _ Hf. repeat split; [exact Hf|lia..].
  - destruct (Z.ltb_spec (offset st) end_) as [Hlt|Hge].
    2: { intros [= <- <-] _ Hf. repeat split; [exact Hf|lia..]. }
    destruct (parseCommand buffer header st) as [[st'|[c e']]| |] eqn:E;
      cbn [obind]; try discriminate.
    + intros Hloop Hl Hf.
      destruct (parseCommand_emits _ _ _ _ E Hl) as [Hl' _].
      destruct (parseCommand_appends _ _ _ _ E Hl) as [Hlen Hf'].
      destruct (parseCommand_progress _ _ _ _ E) as (Hadv & Hne & Hend).
      destruct (IH st' Hloop Hl' (Hf' Hf)) as (H1 & H2 & H3).
      split; [exact H1|].
      destruct (commands st) as [|c0 cs] eqn:Ec, (commands st') as [|c1 cs'] eqn:Ec';
        cbn [length] in *.
      * destruct Hadv as [?|(_ & _ & ?)]; [|congruence]. split; lia.
      * destruct Hadv as [?|(Heq & _ & _)]; split; lia.
      * exfalso. now apply Hne.
      * destruct Hadv as [?|(_ & ? & _)]; [|congruence]. split; lia.
    + intros [= <- <-] _ Hf. apply parseCommand_return in E as [-> _].
      repeat split; [exact Hf|lia..].
Qed.

Lemma decodeListHeader_Len buffer hl :
  decodeListHeader buffer = Return hl -> 0 <= Len hl.1 <= 4095.
Proof.
  unfold decodeListHeader.
  destruct (index buffer 12) as [b12| |]; try discriminate. cbn [obind].
  destruct (0 <? Z.land b12 bigHeaderBit).
  - destruct (slice buffer 12 14) as [s| |]; try discriminate. cbn [obind].
    destruct (Uint16 s) as [v| |]; try discriminate. cbn [obind fst snd].
    intros [= <-]. cbn [fst Len].
    assert (Hm : Z.land v 4095 = v mod 4096)
      by (change 4095 with (Z.ones 12); now rewrite Z.land_ones by lia).
    rewrite Hm. pose proof (Z.mod_pos_bound v 4096). lia.
  - cbn [obind fst snd]. intros [= <-]. cbn [fst Len]. unfold lenMask.
    assert (Hm : Z.land b12 15 = b12 mod 16)
      by (change 15 with (Z.ones 4); now rewrite Z.land_ones by lia).
    rewrite Hm. pose proof (Z.mod_pos_bound b12 16). lia.
Qed.

(** X2. Every command that [Decode] returns has a payload that is one complete
    command, or the single octet [00], and a delta-time of a whole number
    of milliseconds below 2^28. There are at most 4096 of them, and no more
    than the buffer has octets after its twelfth. *)
Theorem Decode_emits (now : Z) (buffer : list Z) (m : MIDIMessage)
  (e : option error) :
  Decode now buffer = Return (m, e) ->
  Forall emittedCommand (Commands (MsgCommands m))
  /\ len (Commands (MsgCommands m)) <= 4096
  /\ len (Commands (MsgCommands m)) <= Z.max 0 (len buffer - 12).
Proof.
  destruct (Z.lt_ge_cases (len buffer) 12) as [Hs|Hs].
  - rewrite Decode_short by exact Hs. intros [= <- <-].
    cbn [zeroMessage zeroCommands MsgCommands Commands].
    change (len (@nil MIDICommand)) with 0. split; [constructor|lia].
  - rewrite Decode_long by exact Hs. destruct (decide _).
    + intros [= <- <-]. cbn [zeroCommands MsgCommands Commands].
      change (len (@nil MIDICommand)) with 0. split; [constructor|lia].
    + destruct (decodeListHeader buffer) as [hl| |] eqn:Hh; try discriminate.
      cbn [obind].
      destruct (parseMIDIList buffer hl.2 hl.1) as [[cmds e']| |] eqn:Hp;
        try discriminate.
      cbn [obind fst]. intros [= <- <-]. cbn [MsgCommands Commands].
      pose proof (decodeListHeader_Len _ _ Hh) as HL.
      pose proof (decodeListHeader_start _ _ Hh) as Hstart.
      unfold parseMIDIList in Hp.
      apply parseLoop_emits in Hp as (H1 & H2 & H3);
        [|now left|constructor].
      cbn [offset commands length] in H2, H3.
      split; [exact H1|]. change (len cmds) with (Z.of_nat (length cmds)).
      assert (13 <= len buffer).
      { unfold decodeListHeader in Hh.
        destruct (index buffer 12) as [b12| |] eqn:Hi; try discriminate.
        apply index_Return in Hi. lia. }
      split; lia.
Qed.

(** The datagram whose list opens with a data byte: the payloads [00] and
    [90 40 7f]. *)
Lemma Decode_emits_witness :
  Forall emittedCommand
    [ {| DeltaTime := 0; Payload := [0x00] |};
      {| DeltaTime := 64 * Millisecond; Payload := [0x90; 0x40; 0x7f] |} ]
  /\ len [ {| DeltaTime := 0; Payload := [0x00] |};
           {| DeltaTime := 64 * Millisecond;
              Payload := [0x90; 0x40; 0x7f] |} ] <= 4096
  /\ len [ {| DeltaTime := 0; Payload := [0x00] |};
           {| DeltaTime := 64 * Millisecond;
              Payload := [0x90; 0x40; 0x7f] |} ]
     <= Z.max 0 (len exampleNoStatus - 12).
Proof.
  apply (Decode_emits 0 exampleNoStatus
           {| SequenceNumber := 0x1234; SSRC := 0xdeadbeef;
              MsgCommands :=
                {| Timestamp := 0;
                   Commands :=
                     [ {| DeltaTime := 0; Payload := [0x00] |};
                       {| DeltaTime := 64 * Millisecond;
                          Payload := [0x90; 0x40; 0x7f] |} ] |} |}
           None).
  vm_compute. reflexivity.
Defined.

(** ** Errors, the empty list and the end of the loop *)

(** X3. [Decode] returns an error on a buffer of fewer than twelve octets, with
    the zero message, and on a longer buffer whose payload type is not
    [0x61], with a message that has the sequence number and the SSRC of the
    wire and no commands; it returns no error in any other case. *)
Theorem Decode_error_cases (now : Z) (buffer : list Z) :
  (len buffer < 12 ->
   Decode now buffer
   = Return (zeroMessage, Some (BufferTooSmall (len buffer))))
  /\ (12 <= len buffer -> wirePayloadType buffer <> payloadType ->
      Decode now buffer
      = Return ({| SequenceNumber := wireSequenceNumber buffer;
                   SSRC := wireSSRC buffer;
                   MsgCommands := zeroCommands |},
                Some (PayloadTypeMismatch (wirePayloadType buffer))))
  /\ (forall m e,
        Decode now buffer = Return (m, Some e) ->
        len buffer < 12 \/ wirePayloadType buffer <> payloadType).
Proof.
  split; [|split].
  - apply Decode_short.
  - intros Hl Hpt. rewrite Decode_long by exact Hl.
    now rewrite decide_True by exact Hpt.
  - intros m e H. destruct (Z.lt_ge_cases (len buffer) 12) as [Hs|Hs];
      [now left|right].
    rewrite Decode_long in H by exact Hs.
    destruct (decide _) as [Hne|He]; [exact Hne|].
    destruct (decodeListHeader buffer) as [hl| |]; try discriminate.
    cbn [obind] in H. destruct (parseMIDIList _ _ _); discriminate.
Qed.

(** A buffer of eleven octets, and the Note-On datagram with the payload
    type [0x60]. *)
Lemma Decode_error_cases_witness :
  Decode 0 (take 11 exampleHeader)
  = Return (zeroMessage, Some (BufferTooSmall 11))
  /\ Decode 0 (<[1%nat := 0x60]> exampleNoteOn)
     = Return ({| SequenceNumber := 0x1234; SSRC := 0xdeadbeef;
                  MsgCommands := zeroCommands |},
               Some (PayloadTypeMismatch 0x60)).
Proof.
  split.
  - refine (proj1 (Decode_error_cases 0 (take 11 exampleHeader)) _).
    vm_compute. reflexivity.
  - refine (proj1 (proj2 (Decode_error_cases 0
                            (<[1%nat := 0x60]> exampleNoteOn))) _ _).
    + vm_compute. discriminate.
    + vm_compute. discriminate.
Defined.

(** X4. A list header with the B flag clear and the length 0 gives a message
    with no commands, whatever its other flags and whatever follows it in
    the buffer. *)
Theorem Decode_empty_list (now : Z) (buffer : list Z) (b12 : Z) :
  wirePayloadType buffer = payloadType ->
  index buffer 12 = Return b12 ->
  Z.land b12 bigHeaderBit = 0 -> Z.land b12 lenMask = 0 ->
  Decode now buffer
  = Return ({| SequenceNumber := wireSequenceNumber buffer;
               SSRC := wireSSRC buffer;
               MsgCommands := {| Timestamp := now; Commands := [] |} |},
            None).
Proof.
  intros Hpt Hi HB HL. pose proof (index_Return _ _ _ Hi) as [Hlen _].
  rewrite Decode_long by lia. rewrite Hpt, decide_False by auto.
  unfold decodeListHeader. rewrite Hi. cbn [obind]. rewrite HB, HL.
  change (0 <? 0) with false. cbn [obind fst snd].
  unfold parseMIDIList. cbn [Len]. rewrite parseLoop_done; [reflexivity|].
  cbn [offset]. lia.
Qed.

(** The list header [60] (J and Z set, length 0) before five more
    octets. *)
Lemma Decode_empty_list_witness :
  Decode 7 (exampleHeader ++ [0x60; 0x90; 0x40; 0x7f; 0x01; 0x02])
  = Return ({| SequenceNumber := 0x1234; SSRC := 0xdeadbeef;
               MsgCommands := {| Timestamp := 7; Commands := [] |} |},
            None).
Proof.
  apply (Decode_empty_list 7
           (exampleHeader ++ [0x60; 0x90; 0x40; 0x7f; 0x01; 0x02]) 0x60);
    reflexivity.
Defined.

(** X5. The loop of [parseMIDIList] ends: whatever the buffer, no more
    iterations are run than twice the list length and two, so that any
    larger bound on the iterations gives the same result. *)
Theorem parseMIDIList_ends (buffer : list Z) (offset0 : Z)
  (header : MIDIListHeader) (fuel : nat) :
  (parseFuel header <= fuel)%nat ->
  parseLoop fuel buffer header (offset0 + Len header) (initialState offset0)
  = parseMIDIList buffer offset0 header
  /\ parseMIDIList buffer offset0 header <> OutOfFuel.
Proof.
  intros Hf. split.
  - unfold parseMIDIList. apply parseLoop_fuel_mono; [exact Hf|].
    apply parseMIDIList_not_OutOfFuel.
  - apply parseMIDIList_not_OutOfFuel.
Qed.

Lemma parseMIDIList_ends_witness :
  parseLoop 1000 exampleNoStatus
    {| bigHeader := false; hasJournal := false;
       preceedingDeltaTime := false; P := false; Len := 4 |}
    (13 + 4) (initialState 13)
  = parseMIDIList exampleNoStatus 13
      {| bigHeader := false; hasJournal := false;
         preceedingDeltaTime := false; P := false; Len := 4 |}.
Proof.
  apply (parseMIDIList_ends exampleNoStatus 13
           {| bigHeader := false; hasJournal := false;
              preceedingDeltaTime := false; P := false; Len := 4 |} 1000).
  vm_compute. lia.
Defined.

(** ** Control packets *)

Lemma lor_low_bits b0 b1 :
  Z.lor b1 (Z.shiftl b0 8) = 0xffff -> Z.land b1 0x7f = 0x7f.
Proof.
  intros H. apply Z.bits_inj'. intros n Hn.
  rewrite Z.land_spec. destruct (Z.testbit 127 n) eqn:E;
    [|apply andb_false_r].
  rewrite andb_true_r.
  assert (Hlt : n < 7).
  { destruct (Z.lt_ge_cases n 7); [assumption|].
    rewrite (testbit_above 127 7 n) in E by lia. discriminate. }
  apply (f_equal (fun z => Z.testbit z n)) in H.
  rewrite Z.lor_spec, Z.shiftl_spec_low, orb_false_r in H by lia.
  rewrite H. change 65535 with (Z.ones 16).
  rewrite Z.testbit_ones_nonneg by lia. apply Z.ltb_lt. lia.
Qed.

(** X6. A buffer that [messageLoop] takes for a control packet, its first two
    octets being [ff ff], is one that [Decode] refuses with an error: no
    packet that decodes is taken for a control packet. *)
Theorem control_packet_not_decoded (now : Z) (buffer : list Z) :
  isControlPacket buffer = Return true ->
  exists m e, Decode now buffer = Return (m, Some e).
Proof.
  unfold isControlPacket. intros H.
  destruct (slice buffer 0 2) as [s| |] eqn:Hs; try discriminate.
  cbn [obind] in H. apply slice_Return in Hs as (_ & _ & Hlen & -> & _).
  destruct (Z.lt_ge_cases (len buffer) 12) as [Hsh|Hlo].
  - rewrite Decode_short by exact Hsh. eauto.
  - rewrite Decode_long by exact Hlo.
    destruct buffer as [|b0 [|b1 buffer]];
      try (unfold len in Hlo; simpl in Hlo; lia).
    change (Uint16 (take (Z.to_nat (2 - 0))
                      (drop (Z.to_nat 0) (b0 :: b1 :: buffer))))
      with (Return (Z.lor b1 (Z.shiftl b0 8))) in H.
    cbn [obind] in H.
    destruct (Z.eqb_spec (Z.lor b1 (Z.shiftl b0 8)) 65535) as [E|];
      [|discriminate].
    apply lor_low_bits in E. unfold wirePayloadType. cbn [nth]. unfold ptMask.
    rewrite E. rewrite decide_True by discriminate. eauto.
Qed.

Lemma control_packet_not_decoded_witness :
  exists m e,
    Decode 0 ([0xff; 0xff; 0x49; 0x4e; 0; 0; 0; 2; 0xde; 0xad; 0xbe; 0xef]
                ++ [0x03; 0x90; 0x40; 0x7f])
    = Return (m, Some e).
Proof.
  apply (control_packet_not_decoded 0
           ([0xff; 0xff; 0x49; 0x4e; 0; 0; 0; 2; 0xde; 0xad; 0xbe; 0xef]
              ++ [0x03; 0x90; 0x40; 0x7f])).
  reflexivity.
Defined.

(** ** Running status *)

(** X7. Where the octet at the offset of an iteration (after the delta-time
    [dt] where one is due) is a data byte, the command takes the last
    status byte [s] as its status: with [s] other than [f0] and as many
    data bytes [data] at hand as the table counts for [s], the iteration
    emits the command [s :: data], status byte included, and keeps [s] as
    the last status byte. So the second of two Note-On commands sent in
    running status is decoded with the status byte of the first. *)
Theorem running_status_expansion (now : Z) (pre dt data post : list Z)
  (d0 : Z) (header : MIDIListHeader) (st : loopState) :
  offset st = len pre ->
  (if (0 <? len (commands st)) || preceedingDeltaTime header
   then validDelta 4 dt = true else dt = []) ->
  List.hd_error data = Some d0 -> isStatus d0 = false ->
  lastStatusByte st <> 0xf0 ->
  len data = midi.GetDataLength (lastStatusByte st) ->
  parseCommand (pre ++ dt ++ data ++ post) header st
  = Return (inl {| offset := offset st + len dt + len data;
                   commands :=
                     commands st
                     ++ [ {| DeltaTime := Millisecond * varintValue dt;
                             Payload := lastStatusByte st :: data |} ];
                   lastStatusByte := lastStatusByte st |})
  /\ decodedCommands (Decode now exampleRunningStatus)
     = Return [ {| DeltaTime := 0; Payload := [0x9c; 0x40; 0x7f] |};
                {| DeltaTime := 10 * Millisecond;
                   Payload := [0x9c; 0x43; 0x7f] |} ].
Proof.
  intros Ho Hdt Hhd Hd0 Hne Hlen. split; [|vm_compute; reflexivity].
  unfold parseCommand.
  assert (Hrd : readCommandDelta (pre ++ dt ++ data ++ post) header st
                = Return (varintValue dt, len pre + len dt)).
  { unfold readCommandDelta. destruct (_ || _).
    - rewrite Ho. unfold varintValue. apply readDeltaTime_valid;
        [exact Hdt|lia|simpl; lia].
    - subst dt. rewrite Ho. change (len (@nil Z)) with 0.
      rewrite Z.add_0_r. reflexivity. }
  rewrite Hrd. cbn [obind fst snd]. clear Hrd Hdt.
  destruct data as [|d data']; [discriminate|]. injection Hhd as ->.
  rewrite (app_assoc pre dt). rewrite <- (len_app pre dt).
  set (pre1 := pre ++ dt).
  change ((d0 :: data') ++ post) with (d0 :: data' ++ post).
  rewrite index_app_at. cbn [obind].
  fold (isStatus d0). rewrite Hd0.
  destruct (Z.eqb_spec (lastStatusByte st) 240) as [?|_]; [contradiction|].
  cbn [obind]. rewrite <- Hlen.
  change (pre1 ++ d0 :: data' ++ post) with (pre1 ++ (d0 :: data') ++ post).
  pose proof (len_nonneg post). pose proof (len_nonneg data').
  destruct (Z.ltb_spec (len (pre1 ++ (d0 :: data') ++ post))
              (len pre1 + len (d0 :: data'))) as [Hlt|_].
  { rewrite !len_app in Hlt. lia. }
  destruct (Z.ltb_spec 0 (len (d0 :: data'))) as [_|Hle].
  2: { rewrite len_cons in Hle. lia. }
  rewrite slice_app_at. cbn [obind fst snd app List.hd].
  destruct (Z.eqb_spec (lastStatusByte st) 240) as [?|_]; [contradiction|].
  cbn [andb negb]. rewrite Ho. subst pre1. rewrite len_app. reflexivity.
Qed.

(** The second Note-On of [exampleRunningStatus], ten milliseconds after
    the first. *)
Lemma running_status_expansion_witness :
  parseCommand exampleRunningStatus
    {| bigHeader := false; hasJournal := false;
       preceedingDeltaTime := false; P := false; Len := 6 |}
    {| offset := 16;
       commands := [ {| DeltaTime := 0; Payload := [0x9c; 0x40; 0x7f] |} ];
       lastStatusByte := 0x9c |}
  = Return (inl {| offset := 16 + 1 + 2;
                   commands :=
                     [ {| DeltaTime := 0; Payload := [0x9c; 0x40; 0x7f] |} ]
                     ++ [ {| DeltaTime := Millisecond * 10;
                             Payload := [0x9c; 0x43; 0x7f] |} ];
                   lastStatusByte := 0x9c |}).
Proof.
  apply (running_status_expansion 0
           (exampleHeader ++ [0x06; 0x9c; 0x40; 0x7f]) [0x0a] [0x43; 0x7f] []
           0x43
           {| bigHeader := false; hasJournal := false;
              preceedingDeltaTime := false; P := false; Len := 6 |}
           {| offset := 16;
              commands := [ {| DeltaTime := 0;
                               Payload := [0x9c; 0x40; 0x7f] |} ];
              lastStatusByte := 0x9c |});
    (reflexivity || discriminate).
Defined.

(** ** The flags of the list header *)

Lemma parseCommand_header buffer header header' st :
  preceedingDeltaTime header = preceedingDeltaTime header' ->
  parseCommand buffer header st = parseCommand buffer header' st.
Proof.
  intros H. unfold parseCommand, readCommandDelta. now rewrite H.
Qed.

Lemma parseLoop_header fuel buffer header header' end_ st :
  preceedingDeltaTime header = preceedingDeltaTime header' ->
  parseLoop fuel buffer header end_ st = parseLoop fuel buffer header' end_ st.
Proof.
  intros H. revert st. induction fuel as [|fuel IH]; intros st;
    [reflexivity|].
  cbn [parseLoop]. destruct (offset st <? end_); [|reflexivity].
  rewrite (parseCommand_header buffer header header' st H).
  apply obind_ext. intros [st'|ret] _; [apply IH|reflexivity].
Qed.

Lemma parseMIDIList_header buffer offset0 header header' :
  preceedingDeltaTime header = preceedingDeltaTime header' ->
  Len header = Len header' ->
  parseMIDIList buffer offset0 header = parseMIDIList buffer offset0 header'.
Proof.
  intros HZ HL. unfold parseMIDIList, parseFuel. rewrite HL.
  now apply parseLoop_header.
Qed.

Lemma land_through_mask x x' m k :
  Z.land x m = Z.land x' m -> Z.land m k = k -> Z.land x k = Z.land x' k.
Proof.
  intros H Hk. rewrite <- Hk, !Z.land_assoc. now rewrite H.
Qed.

Lemma extended_length_bits x y :
  Z.land (Z.lor y (Z.shiftl x 8)) 0x0fff
  = Z.lor (Z.land y 0x0fff) (Z.shiftl (Z.land x 0x0f) 8).
Proof.
  rewrite Z.land_lor_distr_l. f_equal.
  apply Z.bits_inj'. intros n Hn. rewrite Z.land_spec.
  destruct (Z.lt_ge_cases n 8).
  - now rewrite !Z.shiftl_spec_low by lia.
  - rewrite !Z.shiftl_spec, Z.land_spec by lia. f_equal.
    change 4095 with (Z.ones 12). change 15 with (Z.ones 4).
    rewrite !Z.testbit_ones_nonneg by lia.
    destruct (Z.ltb_spec n 12), (Z.ltb_spec (n - 8) 4); (reflexivity || lia).
Qed.

Lemma observable_now now now' buffer :
  observable (Decode now buffer) = observable (Decode now' buffer).
Proof.
  destruct (Z.lt_ge_cases (len buffer) 12) as [H|H].
  - now rewrite !Decode_short by exact H.
  - rewrite !Decode_long by exact H. destruct (decide _); [reflexivity|].
    destruct (decodeListHeader buffer) as [hl| |]; try reflexivity.
    cbn [obind]. destruct (parseMIDIList _ _ _) as [[? ?]| |]; reflexivity.
Qed.

Lemma eraseListFlags_split b b' :
  eraseListFlags b = eraseListFlags b' ->
  b = b'
  \/ exists h x x' rest,
       b = h ++ x :: rest /\ b' = h ++ x' :: rest /\ length h = 12%nat
       /\ Z.land x 0xaf = Z.land x' 0xaf.
Proof.
  intros H.
  assert (Hlen : length b = length b').
  { apply (f_equal length) in H. unfold eraseListFlags in H.
    now rewrite !length_imap in H. }
  assert (Hlook : forall i : nat, i <> 12%nat -> b !! i = b' !! i).
  { intros i Hi. apply (f_equal (fun l => l !! i)) in H.
    unfold eraseListFlags in H. rewrite !list_lookup_imap in H.
    destruct (b !! i), (b' !! i); cbn in H; try congruence.
    repeat case_decide; try lia; congruence. }
  destruct (b !! 12%nat) as [x|] eqn:Hx.
  - right. destruct (lookup_lt_is_Some_2 b' 12%nat) as [x' Hx'].
    { apply lookup_lt_Some in Hx. lia. }
    exists (take 12 b), x, x', (drop 13 b).
    assert (Htake : take 12 b = take 12 b').
    { apply list_eq. intros i. destruct (Nat.lt_ge_cases i 12).
      - rewrite !lookup_take_lt by lia. apply Hlook. lia.
      - rewrite !lookup_take_ge by lia. reflexivity. }
    assert (Hdrop : drop 13 b = drop 13 b').
    { apply list_eq. intros i. rewrite !lookup_drop. apply Hlook. lia. }
    repeat split.
    + rewrite <- (take_drop 12 b) at 1. f_equal. now apply drop_S.
    + rewrite Htake, Hdrop. rewrite <- (take_drop 12 b') at 1. f_equal.
      now apply drop_S.
    + rewrite length_take. apply lookup_lt_Some in Hx. lia.
    + apply (f_equal (fun l => l !! 12%nat)) in H.
      unfold eraseListFlags in H. rewrite !list_lookup_imap in H.
      rewrite Hx, Hx' in H. cbn in H. repeat case_decide; try lia.
      congruence.
  - left. apply list_eq. intros i. destruct (Nat.eq_dec i 12) as [->|Hi];
      [|now apply Hlook].
    rewrite Hx. symmetry. apply lookup_ge_None. apply lookup_ge_None in Hx. lia.
Qed.

Lemma decodeListHeader_flags h x x' rest :
  length h = 12%nat -> Z.land x 0xaf = Z.land x' 0xaf ->
  match decodeListHeader (h ++ x :: rest),
        decodeListHeader (h ++ x' :: rest) with
  | Return hl, Return hl' =>
      hl.2 = hl'.2 /\ Len hl.1 = Len hl'.1
      /\ preceedingDeltaTime hl.1 = preceedingDeltaTime hl'.1
  | Panic, Panic => True
  | _, _ => False
  end.
Proof.
  intros Hl Hx.
  assert (H12 : len h = 12) by (unfold len; rewrite Hl; reflexivity).
  pose proof (land_through_mask x x' 0xaf bigHeaderBit Hx eq_refl) as HB.
  pose proof (land_through_mask x x' 0xaf lenMask Hx eq_refl) as HL.
  pose proof (land_through_mask x x' 0xaf zeroDeltaBit Hx eq_refl) as HZ.
  unfold decodeListHeader. rewrite <- H12, !index_app_at. cbn [obind].
  rewrite <- HB, <- HZ, <- HL.
  destruct (0 <? Z.land x bigHeaderBit); [|cbn; auto].
  destruct rest as [|y rest].
  - unfold slice. rewrite !decide_False; [exact I| |];
      rewrite len_app, len_cons, H12; change (len (@nil Z)) with 0; lia.
  - change (h ++ x :: y :: rest) with (h ++ [x; y] ++ rest).
    change (h ++ x' :: y :: rest) with (h ++ [x'; y] ++ rest).
    assert (Hs : forall z,
               slice (h ++ [z; y] ++ rest) (len h) 14 = Return [z; y]).
    { intros z. replace 14 with (len h + len [z; y])
        by (rewrite H12; reflexivity).
      apply slice_app_at. }
    rewrite !Hs. cbn [obind].
    change (Uint16 [x; y]) with (Return (Z.lor y (Z.shiftl x 8))).
    change (Uint16 [x'; y]) with (Return (Z.lor y (Z.shiftl x' 8))).
    cbn [obind fst snd Len preceedingDeltaTime].
    rewrite !extended_length_bits. unfold lenMask in HL. rewrite HL. auto.
Qed.



(** ** The layout of an encoded message *)

Section EncodeLayout.
Variable timestampOf : Z -> Z -> Z.
Variable EncodeDeltaTime : Z -> Z -> Z -> list Z.

(** X9. An encoded message is twelve octets that open with [80 61], the marker
    bit clear, then a single zero octet for an empty command list; for a
    non-empty one, the list body behind one header octet, behind two when
    it has more than 15 octets, and behind none when it has more than
    4095. *)
Theorem Encode_layout (m : MIDIMessage) (start : Z) :
  take 2 (Encode timestampOf EncodeDeltaTime m start) = [0x80; 0x61]
  /\ drop 12 (Encode timestampOf EncodeDeltaTime m start)
     = encodeMIDICommands EncodeDeltaTime (MsgCommands m) start
  /\ (Commands (MsgCommands m) = [] ->
      len (Encode timestampOf EncodeDeltaTime m start) = 13)
  /\ (Commands (MsgCommands m) <> [] ->
      len (Encode timestampOf EncodeDeltaTime m start)
      = 12 + headerWidth (len (listBody EncodeDeltaTime (MsgCommands m) start))
        + len (listBody EncodeDeltaTime (MsgCommands m) start)
      /\ drop (Z.to_nat
                 (12 + headerWidth
                         (len (listBody EncodeDeltaTime (MsgCommands m)
                                 start))))
              (Encode timestampOf EncodeDeltaTime m start)
         = listBody EncodeDeltaTime (MsgCommands m) start).
Proof.
  split; [reflexivity|]. split; [reflexivity|]. split.
  - intros E. unfold Encode, encodeMIDICommands. rewrite E. reflexivity.
  - intros Hne. unfold Encode.
    rewrite encodeMIDICommands_nonempty by exact Hne.
    set (n := len (listBody EncodeDeltaTime (MsgCommands m) start)).
    set (h := encodeHeader timestampOf m start).
    assert (H12 : len h = 12) by reflexivity.
    pose proof (len_nonneg (listBody EncodeDeltaTime (MsgCommands m) start)).
    unfold headerWidth.
    destruct (4095 <? n); [|destruct (15 <? n)]; rewrite !len_app, H12.
    all: split;
      [rewrite ?len_cons; change (len (@nil Z)) with 0; subst n; lia|].
    all: rewrite app_assoc.
    all: match goal with
         | |- drop ?k (?a ++ _) = _ =>
             replace k with (length a) by reflexivity
         end.
    all: apply drop_app_length.
Qed.

Lemma header_flags_checked :
  forallb (fun flags =>
             forallb (header_flags_ok flags) (map Z.of_nat (seq 0 4096)))
          [0; zeroDeltaBit] = true.
Proof. vm_compute. reflexivity. Qed.

(** X10. In the list header of a non-empty message with a body of at most 4095
    octets, the Z flag is set exactly when the delta-time of the first
    command is positive, the B flag exactly when the body has more than 15
    octets, and the J and P flags never. *)
Theorem Encode_list_flags (m : MIDIMessage) (start : Z)
  (mc : MIDICommand) (cmds : list MIDICommand) :
  Commands (MsgCommands m) = mc :: cmds ->
  len (listBody EncodeDeltaTime (MsgCommands m) start) <= 4095 ->
  let h0 := nth 12 (Encode timestampOf EncodeDeltaTime m start) 0 in
  (0 <? Z.land h0 zeroDeltaBit) = (0 <? DeltaTime mc)
  /\ (0 <? Z.land h0 bigHeaderBit)
     = (15 <? len (listBody EncodeDeltaTime (MsgCommands m) start))
  /\ Z.land h0 journalBit = 0
  /\ Z.land h0 phantomBit = 0.
Proof.
  intros Hc Hn h0. subst h0.
  set (n := len (listBody EncodeDeltaTime (MsgCommands m) start)) in *.
  pose proof (len_nonneg (listBody EncodeDeltaTime (MsgCommands m) start)).
  pose proof (listFlags_cases EncodeDeltaTime (MsgCommands m) start) as Hf.
  assert (Hflags : (0 <? listFlags EncodeDeltaTime (MsgCommands m) start)
                   = (0 <? DeltaTime mc)).
  { unfold listFlags. rewrite Hc, encodeCommands_first. cbn [fst].
    destruct (0 <? DeltaTime mc); reflexivity. }
  pose proof (header_octets _ n Hf ltac:(lia)) as Hok.
  assert (Hfl : header_flags_ok
                  (listFlags EncodeDeltaTime (MsgCommands m) start) n = true).
  { pose proof header_flags_checked as Hc'.
    rewrite forallb_forall in Hc'.
    specialize (Hc' (listFlags EncodeDeltaTime (MsgCommands m) start)).
    rewrite forallb_forall in Hc'. apply Hc'.
    - destruct Hf as [->| ->]; simpl; auto.
    - apply in_map_iff. exists (Z.to_nat n). split; [lia|]. apply in_seq. lia. }
  unfold Encode. rewrite encodeMIDICommands_nonempty by (rewrite Hc; discriminate).
  fold n. destruct (Z.ltb_spec 4095 n) as [?|_]; [lia|].
  unfold header_octets_ok in Hok. unfold header_flags_ok in Hfl.
  set (h := encodeHeader timestampOf m start).
  assert (Hnth : forall y tail, nth 12 (h ++ (y :: tail)) 0 = y)
    by reflexivity.
  destruct (Z.ltb_spec 15 n) as [Hbig|Hsmall].
  - destruct (Z.leb_spec n 15) as [?|_]; [lia|].
    apply andb_prop in Hok as [Hok _]. apply andb_prop in Hok as [Hok _].
    apply andb_prop in Hok as [Hok _]. apply andb_prop in Hok as [H1 _].
    apply Z.eqb_eq in H1. cbn [app]. rewrite Hnth, H1.
    apply andb_prop in Hfl as [Hfl HZ]. apply andb_prop in Hfl as [Hfl HB].
    apply andb_prop in Hfl as [HJ HP].
    apply Z.eqb_eq in HJ, HP. apply eqb_prop in HB, HZ.
    rewrite HZ, HB, Hflags. auto.
  - destruct (Z.leb_spec n 15) as [_|?]; [|lia].
    apply andb_prop in Hok as [Hok _]. apply andb_prop in Hok as [Hok _].
    apply andb_prop in Hok as [H1 _].
    apply Z.eqb_eq in H1. cbn [app]. rewrite Hnth, H1.
    apply andb_prop in Hfl as [Hfl HZ]. apply andb_prop in Hfl as [Hfl HB].
    apply andb_prop in Hfl as [HJ HP].
    apply Z.eqb_eq in HJ, HP. apply eqb_prop in HB, HZ.
    rewrite HZ, HB, Hflags. auto.
Qed.

End EncodeLayout.

(** The two-command example: Z clear, B clear, as its first delta-time is 0
    and its body has 10 octets. *)
Lemma Encode_list_flags_witness :
  (0 <? Z.land (nth 12 (Encode exampleTimestampOf exampleEncodeDeltaTime
                          exampleMessage 0) 0) zeroDeltaBit) = false
  /\ (0 <? Z.land (nth 12 (Encode exampleTimestampOf exampleEncodeDeltaTime
                             exampleMessage 0) 0) bigHeaderBit) = false
  /\ Z.land (nth 12 (Encode exampleTimestampOf exampleEncodeDeltaTime
                       exampleMessage 0) 0) journalBit = 0
  /\ Z.land (nth 12 (Encode exampleTimestampOf exampleEncodeDeltaTime
                       exampleMessage 0) 0) phantomBit = 0.
Proof.
  refine (Encode_list_flags exampleTimestampOf exampleEncodeDeltaTime
            exampleMessage 0
            {| DeltaTime := 0; Payload := [0x90; 0x40; 0x7f] |}
            [ {| DeltaTime := 200 * Millisecond;
                 Payload := [0xf0; 0x01; 0x02; 0xf7] |} ] _ _).
  - reflexivity.
  - vm_compute. discriminate.
Defined.

(** ** The round trip, delta-times included *)

Section ExactRoundTrip.
Variable timestampOf : Z -> Z -> Z.
Variable EncodeDeltaTime : Z -> Z -> Z -> list Z.
Variables ts start : Z.

Lemma parseLoop_later_exact cmds pre post st fuel header :
  Forall (fun mc => wellFormed (Payload mc) = true) cmds ->
  Forall (fun mc =>
            validDelta 4 (EncodeDeltaTime ts start (DeltaTime mc)) = true)
         cmds ->
  offset st = len pre ->
  (0 <? len (commands st)) || preceedingDeltaTime header = true ->
  (length cmds <= fuel)%nat ->
  parseLoop fuel
    (pre ++ concat (map (encodeLater EncodeDeltaTime ts start) cmds) ++ post)
    header
    (len pre + len (concat (map (encodeLater EncodeDeltaTime ts start) cmds)))
    st
  = Return (commands st
            ++ map (fun mc =>
                      {| DeltaTime :=
                           Millisecond
                           * varintValue
                               (EncodeDeltaTime ts start (DeltaTime mc));
                         Payload := Payload mc |}) cmds,
            None).
Proof.
  revert pre st fuel.
  induction cmds as [|mc cmds IH]; intros pre st fuel Hwf Hvd Ho Hdue Hf.
  - rewrite parseLoop_done; [now rewrite app_nil_r|].
    cbn. change (len (@nil Z)) with 0. lia.
  - destruct fuel as [|fuel]; [simpl in Hf; lia|].
    inversion Hwf as [|? ? Hwf1 Hwf2]; subst.
    inversion Hvd as [|? ? Hvd1 Hvd2]; subst.
    pose proof (wellFormed_nonempty _ Hwf1) as Hp1.
    set (dt := EncodeDeltaTime ts start (DeltaTime mc)) in *.
    set (later := concat (map (encodeLater EncodeDeltaTime ts start) cmds))
      in *.
    assert (Hbuf : concat (map (encodeLater EncodeDeltaTime ts start)
                             (mc :: cmds))
                   = dt ++ Payload mc ++ later).
    { cbn [map concat]. unfold encodeLater at 1.
      rewrite encodePayload_wellFormed by exact Hwf1.
      now rewrite <- app_assoc. }
    rewrite Hbuf. cbn [parseLoop].
    pose proof (len_nonneg dt). pose proof (len_nonneg later).
    destruct (Z.ltb_spec (offset st)
                (len pre + len (dt ++ Payload mc ++ later))) as [_|Hge].
    2: { rewrite !len_app in Hge. lia. }
    rewrite <- !app_assoc.
    rewrite (parseCommand_wellFormed pre dt (Payload mc) (later ++ post)
               header st)
      by (try rewrite Hdue; assumption).
    cbn [obind].
    set (st' := {| offset := _; commands := _; lastStatusByte := _ |}).
    specialize (IH (pre ++ dt ++ Payload mc) st' fuel Hwf2 Hvd2).
    rewrite <- !app_assoc in IH.
    replace (len (pre ++ dt ++ Payload mc) + len later)
      with (len pre + len (dt ++ Payload mc ++ later)) in IH
      by (rewrite !len_app; lia).
    rewrite IH.
    + subst st'. cbn [commands map]. now rewrite <- app_assoc.
    + subst st'. cbn [offset]. rewrite !len_app. lia.
    + subst st'. cbn [commands]. rewrite len_app, len_cons.
      pose proof (len_nonneg (commands st)).
      change (len (@nil MIDICommand)) with 0.
      destruct (Z.ltb_spec 0 (len (commands st) + (1 + 0)));
        [reflexivity|lia].
    + simpl in Hf. lia.
Qed.

Lemma parseLoop_body_exact pre post header mc cmds fuel :
  Forall (fun mc => wellFormed (Payload mc) = true) (mc :: cmds) ->
  deltasReadable EncodeDeltaTime ts start (mc :: cmds) ->
  preceedingDeltaTime header = (0 <? DeltaTime mc) ->
  (S (length cmds) <= fuel)%nat ->
  let body :=
    (if 0 <? DeltaTime mc then EncodeDeltaTime ts start (DeltaTime mc)
     else []) ++ encodePayload (Payload mc)
      ++ concat (map (encodeLater EncodeDeltaTime ts start) cmds) in
  parseLoop fuel (pre ++ body ++ post) header (len pre + len body)
    (initialState (len pre))
  = Return (throughCodec EncodeDeltaTime ts start (mc :: cmds), None).
Proof.
  intros Hwf [Hvd1 Hvd2] Hz Hf body.
  destruct fuel as [|fuel]; [lia|].
  inversion Hwf as [|? ? Hwf1 Hwf2]; subst.
  pose proof (wellFormed_nonempty _ Hwf1) as Hp1.
  subst body. rewrite encodePayload_wellFormed by exact Hwf1.
  set (dt := if 0 <? DeltaTime mc
             then EncodeDeltaTime ts start (DeltaTime mc) else []).
  set (later := concat (map (encodeLater EncodeDeltaTime ts start) cmds)).
  unfold initialState. cbn [parseLoop offset].
  pose proof (len_nonneg dt). pose proof (len_nonneg later).
  destruct (Z.ltb_spec (len pre)
              (len pre + len (dt ++ Payload mc ++ later))) as [_|Hge].
  2: { rewrite !len_app in Hge. lia. }
  rewrite <- !app_assoc.
  rewrite (parseCommand_wellFormed pre dt (Payload mc) (later ++ post)
             header).
  2: reflexivity. 2: exact Hwf1.
  2: { cbn [commands]. rewrite Hz. subst dt.
       change (0 <? len (@nil MIDICommand)) with false. cbn [orb].
       destruct (Z.ltb_spec 0 (DeltaTime mc)); [now apply Hvd1|reflexivity]. }
  cbn [obind commands app].
  set (st' := {| offset := _; commands := _; lastStatusByte := _ |}).
  pose proof (parseLoop_later_exact cmds (pre ++ dt ++ Payload mc) post st'
                fuel header Hwf2 Hvd2) as Hloop.
  fold later in Hloop. rewrite <- !app_assoc in Hloop.
  replace (len (pre ++ dt ++ Payload mc) + len later)
    with (len pre + len (dt ++ Payload mc ++ later)) in Hloop
    by (rewrite !len_app; lia).
  rewrite Hloop.
  - reflexivity.
  - subst st'. cbn [offset]. rewrite !len_app. lia.
  - reflexivity.
  - lia.
Qed.

End ExactRoundTrip.

(** The list header that the encoder writes for a body of [n] octets, read
    back, whatever follows it. *)
Lemma decodeListHeader_written h flags n tail :
  length h = 12%nat -> flags = 0 \/ flags = zeroDeltaBit ->
  0 <= n <= 4095 ->
  let written :=
    if 15 <? n then
      [Z.lor (Z.lor flags bigHeaderBit)
             (Z.land (toByte (Z.shiftr n 8)) lenMask); toByte n]
    else [Z.lor flags (Z.land (toByte n) lenMask)] in
  exists hdr,
    decodeListHeader (h ++ written ++ tail) = Return (hdr, len (h ++ written))
    /\ Len hdr = n
    /\ preceedingDeltaTime hdr = (0 <? flags).
Proof.
  intros Hl Hf Hn written.
  assert (H12 : len h = 12) by (unfold len; rewrite Hl; reflexivity).
  pose proof (header_octets flags n Hf Hn) as Hok.
  unfold header_octets_ok in Hok. unfold decodeListHeader.
  rewrite <- H12. subst written.
  destruct (Z.ltb_spec 15 n) as [Hbig|Hsmall].
  - destruct (Z.leb_spec n 15) as [?|_]; [lia|].
    apply andb_prop in Hok as [Hok H5]. apply andb_prop in Hok as [Hok H4].
    apply andb_prop in Hok as [Hok H3]. apply andb_prop in Hok as [H1 H2].
    apply Z.eqb_eq in H1, H2, H3, H4, H5. rewrite H1, H2.
    cbn [app]. rewrite index_app_at. cbn [obind]. rewrite H3.
    change (0 <? bigHeaderBit) with true. cbn iota.
    change (h ++ extendedOctet flags n :: n mod 256 :: tail)
      with (h ++ [extendedOctet flags n; n mod 256] ++ tail).
    assert (Hs : slice (h ++ [extendedOctet flags n; n mod 256] ++ tail)
                   (len h) 14
                 = Return [extendedOctet flags n; n mod 256]).
    { replace 14 with (len h + len [extendedOctet flags n; n mod 256])
        by (rewrite H12; reflexivity).
      apply slice_app_at. }
    rewrite Hs. cbn [obind].
    change (Uint16 [extendedOctet flags n; n mod 256])
      with (Return (Z.lor (n mod 256) (Z.shiftl (extendedOctet flags n) 8))).
    cbn [obind fst snd]. rewrite H4, H5.
    eexists. split; [|split].
    1: { apply f_equal. apply f_equal2; [reflexivity|].
         rewrite len_app, ?H12. reflexivity. }
    all: reflexivity.
  - destruct (Z.leb_spec n 15) as [_|?]; [|lia].
    apply andb_prop in Hok as [Hok H4]. apply andb_prop in Hok as [Hok H3].
    apply andb_prop in Hok as [H1 H2].
    apply Z.eqb_eq in H1, H2, H3, H4. rewrite H1.
    cbn [app]. rewrite index_app_at. cbn [obind]. rewrite H2.
    change (0 <? 0) with false. cbn iota. cbn [obind fst snd].
    rewrite H3, H4.
    eexists. split; [|split].
    1: { apply f_equal. apply f_equal2; [reflexivity|].
         rewrite len_app, ?H12. reflexivity. }
    all: reflexivity.
Qed.

Section ExactRoundTripMessage.
Variable timestampOf : Z -> Z -> Z.
Variable EncodeDeltaTime : Z -> Z -> Z -> list Z.

(** The message that decoding the encoding of [m], with the octets
    [journal] after it, gives at the moment [now]. *)
Lemma Decode_Encode_journal now start m journal :
  is_uint16 (SequenceNumber m) ->
  is_uint32 (SSRC m) ->
  Forall (fun mc => wellFormed (Payload mc) = true)
         (Commands (MsgCommands m)) ->
  deltasReadable EncodeDeltaTime (Timestamp (MsgCommands m)) start
    (Commands (MsgCommands m)) ->
  len (listBody EncodeDeltaTime (MsgCommands m) start) <= 4095 ->
  Decode now (Encode timestampOf EncodeDeltaTime m start ++ journal)
  = Return ({| SequenceNumber := SequenceNumber m;
               SSRC := SSRC m;
               MsgCommands :=
                 {| Timestamp := now;
                    Commands :=
                      throughCodec EncodeDeltaTime
                        (Timestamp (MsgCommands m)) start
                        (Commands (MsgCommands m)) |} |},
            None).
Proof.
  intros H16 H32 Hwf Hvd Hlen. unfold Encode.
  set (h := encodeHeader timestampOf m start).
  rewrite <- app_assoc.
  rewrite (Decode_valid_header now h) by reflexivity.
  rewrite (encodeHeader_sequenceNumber timestampOf m start _ H16).
  rewrite (encodeHeader_SSRC timestampOf m start _ H32).
  destruct (Commands (MsgCommands m)) as [|mc cmds] eqn:Hcmds.
  - (* the empty list *)
    unfold encodeMIDICommands. rewrite Hcmds.
    change (len (@nil MIDICommand) =? 0) with true. cbn iota.
    unfold decodeListHeader. cbn [app].
    replace 12 with (len h) at 1 by reflexivity.
    rewrite index_app_at. cbn [obind].
    change (0 <? Z.land emtpyHeader bigHeaderBit) with false.
    cbn [obind fst snd]. unfold parseMIDIList.
    rewrite parseLoop_done; [reflexivity|].
    cbn [offset Len fst snd]. change (Z.land emtpyHeader lenMask) with 0. lia.
  - assert (Hne : Commands (MsgCommands m) <> [])
      by (rewrite Hcmds; discriminate).
    rewrite encodeMIDICommands_nonempty by exact Hne.
    destruct (Z.ltb_spec 4095
                (len (listBody EncodeDeltaTime (MsgCommands m) start)))
      as [?|_]; [lia|].
    pose proof (listFlags_cases EncodeDeltaTime (MsgCommands m) start) as Hfl.
    set (body := listBody EncodeDeltaTime (MsgCommands m) start) in *.
    pose proof (len_nonneg body) as Hb0.
    destruct (decodeListHeader_written h _ (len body) (body ++ journal)
                eq_refl Hfl ltac:(lia))
      as (hdr & Hdec & HLen & HZ).
    cbv zeta in Hdec.
    set (written := if 15 <? _ then _ else _) in *.
    rewrite <- (app_assoc written body journal).
    rewrite Hdec. cbn [obind fst snd].
    unfold parseMIDIList. rewrite HLen.
    assert (Hbody : body
                    = (if 0 <? DeltaTime mc
                       then EncodeDeltaTime (Timestamp (MsgCommands m)) start
                              (DeltaTime mc) else [])
                      ++ encodePayload (Payload mc)
                      ++ concat (map (encodeLater EncodeDeltaTime
                                        (Timestamp (MsgCommands m)) start)
                                   cmds))
      by (subst body; unfold listBody;
          rewrite Hcmds, encodeCommands_first; reflexivity).
    assert (HZ' : preceedingDeltaTime hdr = (0 <? DeltaTime mc)).
    { rewrite HZ. unfold listFlags. rewrite Hcmds, encodeCommands_first.
      cbn [fst]. destruct (0 <? DeltaTime mc); reflexivity. }
    rewrite (app_assoc h written (body ++ journal)).
    fold (initialState (len (h ++ written))).
    set (fuel := parseFuel hdr).
    pose proof (parseLoop_body_exact EncodeDeltaTime
                  (Timestamp (MsgCommands m)) start
                  (h ++ written) journal hdr mc cmds
                  (Nat.max fuel (S (length cmds)))
                  Hwf Hvd HZ' ltac:(lia)) as Hloop.
    cbv zeta in Hloop. rewrite <- Hbody in Hloop.
    assert (Hrun : parseLoop fuel ((h ++ written) ++ body ++ journal) hdr
                     (len (h ++ written) + len body)
                     (initialState (len (h ++ written)))
                   = Return (throughCodec EncodeDeltaTime
                               (Timestamp (MsgCommands m)) start (mc :: cmds),
                             None)).
    { rewrite <- Hloop. symmetry. apply parseLoop_fuel_mono; [lia|].
      apply parseLoop_fuel_enough. subst fuel.
      unfold loopMeasure, parseFuel, initialState. cbn [offset commands].
      rewrite HLen.
      replace (len (h ++ written) + len body - len (h ++ written))
        with (len body) by lia. lia. }
    rewrite Hrun. reflexivity.
Qed.

Lemma Decode_Encode_exact now start m :
  is_uint16 (SequenceNumber m) ->
  is_uint32 (SSRC m) ->
  Forall (fun mc => wellFormed (Payload mc) = true)
         (Commands (MsgCommands m)) ->
  deltasReadable EncodeDeltaTime (Timestamp (MsgCommands m)) start
    (Commands (MsgCommands m)) ->
  len (listBody EncodeDeltaTime (MsgCommands m) start) <= 4095 ->
  Decode now (Encode timestampOf EncodeDeltaTime m start)
  = Return ({| SequenceNumber := SequenceNumber m;
               SSRC := SSRC m;
               MsgCommands :=
                 {| Timestamp := now;
                    Commands :=
                      throughCodec EncodeDeltaTime
                        (Timestamp (MsgCommands m)) start
                        (Commands (MsgCommands m)) |} |},
            None).
Proof.
  intros. rewrite <- (app_nil_r (Encode _ _ _ _)).
  now apply Decode_Encode_journal.
Qed.

(** X11. Decoding the encoding of a message whose commands are complete, whose
    delta-times the encoder writes as the decoder reads them and whose list
    body has at most 4095 octets, gives exactly this message, whatever
    octets [journal] follow the encoding in the buffer: the sequence number
    and the SSRC of [m], the moment of the call as the timestamp, and the
    commands of [m] with their payloads and with the delta-times that the
    octets written stand for. An empty command list comes back empty, and
    a first delta-time that is not positive comes back as 0. *)
Theorem Decode_Encode_commands (now start : Z) (m : MIDIMessage)
  (journal : list Z) :
  is_uint16 (SequenceNumber m) ->
  is_uint32 (SSRC m) ->
  Forall (fun mc => wellFormed (Payload mc) = true)
         (Commands (MsgCommands m)) ->
  deltasReadable EncodeDeltaTime (Timestamp (MsgCommands m)) start
    (Commands (MsgCommands m)) ->
  len (listBody EncodeDeltaTime (MsgCommands m) start) <= 4095 ->
  Decode now (Encode timestampOf EncodeDeltaTime m start ++ journal)
  = Return ({| SequenceNumber := SequenceNumber m;
               SSRC := SSRC m;
               MsgCommands :=
                 {| Timestamp := now;
                    Commands :=
                      throughCodec EncodeDeltaTime
                        (Timestamp (MsgCommands m)) start
                        (Commands (MsgCommands m)) |} |},
            None).
Proof. apply Decode_Encode_journal. Qed.

End ExactRoundTripMessage.

(** The two-command example before three more octets: the second command
    comes back 200 ms after the first. *)
Lemma Decode_Encode_commands_witness :
  Decode 7 (Encode exampleTimestampOf exampleEncodeDeltaTime exampleMessage 0
              ++ [0x20; 0x00; 0x07])
  = Return ({| SequenceNumber := 0x1234; SSRC := 0xdeadbeef;
               MsgCommands :=
                 {| Timestamp := 7;
                    Commands :=
                      [ {| DeltaTime := 0; Payload := [0x90; 0x40; 0x7f] |};
                        {| DeltaTime := 200 * Millisecond;
                           Payload := [0xf0; 0x01; 0x02; 0xf7] |} ] |} |},
            None).
Proof.
  refine (Decode_Encode_commands exampleTimestampOf exampleEncodeDeltaTime
            7 0 exampleMessage [0x20; 0x00; 0x07] _ _ _ _ _).
  - unfold is_uint16. cbn. lia.
  - unfold is_uint32. cbn. lia.
  - repeat constructor.
  - split; [intros _; reflexivity|repeat constructor].
  - vm_compute. discriminate.
Defined.

(** ** The registry over several operations *)

Section RegistryProperties.
Import session.

(** X12. [getConnection] takes nothing away: whatever the message, every SSRC
    that was registered stays bound to the pointer it had, every stream of
    the store stays as it was, the other fields of the session are not
    touched, and pointers that were allocated stay so. A message that is
    no Invitation changes nothing at all and is a plain lookup. *)
Theorem getConnection_keeps (w : world) (msg : ControlMessage) :
  (forall k p, connections (sess w) !! k = Some p ->
               connections (sess (getConnection w msg).1) !! k = Some p)
  /\ (forall p conn, streams w !! p = Some conn ->
                     streams (getConnection w msg).1 !! p = Some conn)
  /\ sessSequenceNumber (sess (getConnection w msg).1)
     = sessSequenceNumber (sess w)
  /\ sessSSRC (sess (getConnection w msg).1) = sessSSRC (sess w)
  /\ StartTime (sess (getConnection w msg).1) = StartTime (sess w)
  /\ (wfWorld w -> wfWorld (getConnection w msg).1)
  /\ (Cmd msg <> Invitation ->
      getConnection w msg = (w, connections (sess w) !! ctlSSRC msg)).
Proof.
  assert (Hf : streams w !! fresh (dom (streams w)) = None).
  { apply not_elem_of_dom. apply is_fresh. }
  repeat split.
  - intros k p Hk. unfold getConnection, createConnection, LoadOrStore.
    destruct (decide _); [|exact Hk]. cbn [sess streams].
    destruct (connections (sess w) !! ctlSSRC msg) eqn:E;
      cbn [fst snd sess connections setConnections]; [exact Hk|].
    rewrite lookup_insert_ne; [exact Hk|]. congruence.
  - intros p conn Hp. unfold getConnection, createConnection, LoadOrStore.
    destruct (decide _); [|exact Hp]. cbn [sess streams].
    destruct (connections (sess w) !! ctlSSRC msg);
      cbn [fst snd sess streams]; (rewrite lookup_insert_ne; [exact Hp|]);
      congruence.
  - unfold getConnection, createConnection, LoadOrStore.
    destruct (decide _); [|reflexivity]. cbn [sess streams].
    destruct (connections (sess w) !! ctlSSRC msg); reflexivity.
  - unfold getConnection, createConnection, LoadOrStore.
    destruct (decide _); [|reflexivity]. cbn [sess streams].
    destruct (connections (sess w) !! ctlSSRC msg); reflexivity.
  - unfold getConnection, createConnection, LoadOrStore.
    destruct (decide _); [|reflexivity]. cbn [sess streams].
    destruct (connections (sess w) !! ctlSSRC msg); reflexivity.
  - apply getConnection_wf.
  - intros Hne. unfold getConnection. now rewrite decide_False by exact Hne.
Qed.

(** X13. After an Invitation for an SSRC, a data message with that SSRC finds
    the connection that the Invitation returned, and so does any later
    control message with it; a second Invitation returns the same pointer
    and leaves the session as the first left it. *)
Theorem Invitation_then_lookup (w : world) (ssrc : Z) (name name' : string)
  (msg : MIDIMessage) (ctl : ControlMessage) :
  SSRC msg = ssrc -> ctlSSRC ctl = ssrc ->
  let inv := {| Cmd := Invitation; ctlSSRC := ssrc; Name := name |} in
  let inv' := {| Cmd := Invitation; ctlSSRC := ssrc; Name := name' |} in
  let w1 := (getConnection w inv).1 in
  is_Some (getConnection w inv).2
  /\ loadMIDIConnection w1 msg = (getConnection w inv).2
  /\ (getConnection w1 ctl).2 = (getConnection w inv).2
  /\ (getConnection w1 inv').2 = (getConnection w inv).2
  /\ sess (getConnection w1 inv').1 = sess w1.
Proof.
  intros Hm Hc inv inv' w1.
  assert (H1 : exists p, (getConnection w inv).2 = Some p
                         /\ connections (sess w1) !! ssrc = Some p).
  { subst w1. unfold getConnection, createConnection, LoadOrStore.
    cbn [Cmd inv ctlSSRC sess streams]. rewrite decide_True by reflexivity.
    destruct (connections (sess w) !! ssrc) as [p|] eqn:E;
      cbn [fst snd sess connections setConnections]; eexists; split;
      try reflexivity; [exact E|apply lookup_insert_eq]. }
  destruct H1 as (p & Hr & Hp). rewrite Hr.
  assert (Hinv : forall c, ctlSSRC c = ssrc ->
                   (getConnection w1 c).2 = Some p
                   /\ sess (getConnection w1 c).1 = sess w1).
  { intros c Hcs. unfold getConnection, createConnection, LoadOrStore.
    destruct (decide _); cbn [sess streams]; rewrite Hcs, Hp; auto. }
  repeat split.
  - eauto.
  - unfold loadMIDIConnection. now rewrite Hm.
  - now apply Hinv.
  - now apply (Hinv inv').
  - now apply (Hinv inv').
Qed.

Lemma Invitation_then_lookup_witness :
  (getConnection
     (getConnection exampleWorld
        {| Cmd := Invitation; ctlSSRC := 0xbeef; Name := "new" |}).1
     {| Cmd := End; ctlSSRC := 0xbeef; Name := "none" |}).2
  = (getConnection exampleWorld
       {| Cmd := Invitation; ctlSSRC := 0xbeef; Name := "new" |}).2.
Proof.
  refine (proj1 (proj2 (proj2
            (Invitation_then_lookup exampleWorld 0xbeef "new" "again"
               {| SequenceNumber := 1; SSRC := 0xbeef;
                  MsgCommands := zeroCommands |}
               {| Cmd := End; ctlSSRC := 0xbeef; Name := "none" |} _ _))));
    reflexivity.
Defined.

(** X14. After [removeConnection] of a stream, a lookup of its SSRC finds
    nothing, by a data message as by a control message that is no
    Invitation; the other SSRCs are found as before, and the store of
    streams and the other fields of the session are not touched. *)
Theorem lookup_after_removal (w : world) (conn : MIDINetworkStream)
  (msg : MIDIMessage) (ctl : ControlMessage) :
  let w1 := removeConnection w conn in
  (SSRC msg = RemoteSSRC conn -> loadMIDIConnection w1 msg = None)
  /\ (SSRC msg <> RemoteSSRC conn ->
      loadMIDIConnection w1 msg = loadMIDIConnection w msg)
  /\ (Cmd ctl <> Invitation -> ctlSSRC ctl = RemoteSSRC conn ->
      getConnection w1 ctl = (w1, None))
  /\ streams w1 = streams w
  /\ sessSequenceNumber (sess w1) = sessSequenceNumber (sess w)
  /\ sessSSRC (sess w1) = sessSSRC (sess w)
  /\ (wfWorld w -> wfWorld w1)
  /\ size (connections (sess w1))
     = (size (connections (sess w))
        - match connections (sess w) !! RemoteSSRC conn with
          | Some _ => 1 | None => 0 end)%nat.
Proof.
  intros w1. subst w1. unfold removeConnection, loadMIDIConnection.
  cbn [sess streams connections setConnections sessSequenceNumber sessSSRC].
  repeat split.
  - intros ->. apply lookup_delete_eq.
  - intros Hne. apply lookup_delete_ne. congruence.
  - intros Hc Hs. unfold getConnection. rewrite decide_False by exact Hc.
    cbn [sess connections setConnections]. rewrite Hs.
    now rewrite lookup_delete_eq.
  - intros Hwf k p Hk. cbn [sess streams connections setConnections] in *.
    apply lookup_delete_Some in Hk as [_ Hk]. exact (Hwf k p Hk).
  - destruct (connections (sess w) !! RemoteSSRC conn) eqn:E.
    + rewrite map_size_delete, E. lia.
    + rewrite delete_id by exact E. lia.
Qed.

Lemma lookup_after_removal_witness :
  loadMIDIConnection
    (removeConnection exampleWorld
       {| Host := {| hostBonjourName := "peer" |}; RemoteSSRC := 0xcafe;
          State := established |})
    {| SequenceNumber := 7; SSRC := 0xcafe; MsgCommands := zeroCommands |}
  = None.
Proof.
  refine (proj1 (lookup_after_removal exampleWorld
                   {| Host := {| hostBonjourName := "peer" |};
                      RemoteSSRC := 0xcafe; State := established |}
                   {| SequenceNumber := 7; SSRC := 0xcafe;
                      MsgCommands := zeroCommands |}
                   {| Cmd := End; ctlSSRC := 0xcafe; Name := "none" |}) _).
  reflexivity.
Defined.

(** X15. An Invitation that comes after the removal of a connection makes a new
    one: its pointer is not the pointer of the removed connection, it
    points to a stream in state [initial], and the stream that was removed
    from the registry is still in the store as it was. *)
Theorem Invitation_after_removal (w : world) (ssrc : Z) (name : string)
  (p : ptr) (conn : MIDINetworkStream) :
  connections (sess w) !! ssrc = Some p ->
  streams w !! p = Some conn ->
  RemoteSSRC conn = ssrc ->
  let inv := {| Cmd := Invitation; ctlSSRC := ssrc; Name := name |} in
  let w2 := getConnection (removeConnection w conn) inv in
  exists q,
    w2.2 = Some q /\ q <> p
    /\ connections (sess w2.1) !! ssrc = Some q
    /\ streams w2.1 !! q
       = Some {| Host := {| hostBonjourName := name |};
                 RemoteSSRC := ssrc; State := initial |}
    /\ streams w2.1 !! p = Some conn
    /\ size (connections (sess w2.1)) = size (connections (sess w)).
Proof.
  intros Hp Hs Hr inv w2. subst w2.
  unfold getConnection, createConnection, LoadOrStore, removeConnection.
  cbn [Cmd inv ctlSSRC Name sess streams connections setConnections].
  rewrite decide_True by reflexivity. rewrite Hr, lookup_delete_eq.
  cbn [fst snd sess streams connections setConnections].
  assert (Hf : streams w !! fresh (dom (streams w)) = None).
  { apply not_elem_of_dom. apply is_fresh. }
  assert (Hne : fresh (dom (streams w)) <> p) by congruence.
  exists (fresh (dom (streams w))). repeat split.
  - exact Hne.
  - apply lookup_insert_eq.
  - apply lookup_insert_eq.
  - rewrite lookup_insert_ne; [exact Hs|exact Hne].
  - rewrite map_size_insert_None by apply lookup_delete_eq.
    rewrite map_size_delete, Hp.
    assert (size (connections (sess w)) <> 0%nat).
    { apply map_size_ne_0_lookup_2 with (i := ssrc). eauto. }
    lia.
Qed.

Lemma Invitation_after_removal_witness :
  exists q,
    (getConnection
       (removeConnection exampleWorld
          {| Host := {| hostBonjourName := "peer" |}; RemoteSSRC := 0xcafe;
             State := established |})
       {| Cmd := Invitation; ctlSSRC := 0xcafe; Name := "peer" |}).2
    = Some q /\ q <> 1%positive.
Proof.
  destruct (Invitation_after_removal exampleWorld 0xcafe "peer" 1%positive
              {| Host := {| hostBonjourName := "peer" |};
                 RemoteSSRC := 0xcafe; State := established |}
              eq_refl eq_refl eq_refl) as (q & H1 & H2 & _).
  exists q. split; [exact H1|exact H2].
Defined.

(** X16. Calls of [SendMIDICommands] one after the other move the sequence
    number on by their number, modulo 2^16, and touch neither the SSRC nor
    the start time nor the connections. *)
Theorem sendEach_sequence (s : MIDINetworkSession)
  (mcss : list MIDICommands) :
  is_uint16 (sessSequenceNumber s) ->
  sessSequenceNumber (sendEach s mcss)
  = (sessSequenceNumber s + len mcss) mod 2 ^ 16
  /\ sessSSRC (sendEach s mcss) = sessSSRC s
  /\ StartTime (sendEach s mcss) = StartTime s
  /\ connections (sendEach s mcss) = connections s.
Proof.
  revert s. induction mcss as [|mcs rest IH]; intros s Hs.
  - cbn [sendEach]. change (len (@nil MIDICommands)) with 0.
    rewrite Z.add_0_r, Z.mod_small by exact Hs. auto.
  - cbn [sendEach].
    destruct (IH (SendMIDICommands s mcs).1) as (H1 & H2 & H3 & H4).
    { unfold SendMIDICommands. cbn. unfold is_uint16.
      apply Z.mod_pos_bound. lia. }
    rewrite H1, H2, H3, H4. unfold SendMIDICommands.
    cbn [fst sessSequenceNumber setSequenceNumber sessSSRC StartTime
         connections].
    repeat split. rewrite len_cons, Zplus_mod_idemp_l. f_equal. lia.
Qed.

Lemma sendEach_sequence_witness :
  sessSequenceNumber
    (sendEach (sess exampleWorld) [zeroCommands; zeroCommands; zeroCommands])
  = 2.
Proof.
  refine (proj1 (sendEach_sequence (sess exampleWorld)
                   [zeroCommands; zeroCommands; zeroCommands] _)).
  unfold is_uint16. cbn. lia.
Defined.

End RegistryProperties.

(** ** From the session to the wire and back *)

Section SendAndDecode.
Import session.
Variable timestampOf : Z -> Z -> Z.
Variable EncodeDeltaTime : Z -> Z -> Z -> list Z.

(** X17. What [SendMIDIPayload] hands to a connection, once encoded and decoded,
    is the payload sent: for a payload that is one complete command of at
    most 4095 octets and a session whose SSRC is in the range of its type,
    every message handed over decodes, whatever the timestamp collaborator
    does, to the new sequence number of the session, its SSRC, and the one
    command with the delta-time 0 and the payload. *)
Theorem SendMIDIPayload_decodes (now now' start : Z)
  (s : MIDINetworkSession) (payload : list Z) (p : ptr) (m : MIDIMessage) :
  wellFormed payload = true -> len payload <= 4095 ->
  is_uint32 (sessSSRC s) ->
  (p, m) ∈ (SendMIDIPayload now s payload).2 ->
  Decode now' (Encode timestampOf EncodeDeltaTime m start)
  = Return ({| SequenceNumber :=
                 sessSequenceNumber (SendMIDIPayload now s payload).1;
               SSRC := sessSSRC s;
               MsgCommands :=
                 {| Timestamp := now';
                    Commands := [ {| DeltaTime := 0;
                                     Payload := payload |} ] |} |},
            None).
Proof.
  intros Hwf Hlen H32 Hin.
  unfold SendMIDIPayload, SendMIDICommands in *.
  cbn [fst snd sessSequenceNumber setSequenceNumber sessSSRC connections]
    in *.
  apply list_elem_of_fmap in Hin as ([k q] & [= -> ->] & _).
  rewrite (Decode_Encode_exact timestampOf EncodeDeltaTime now' start).
  - reflexivity.
  - cbn [SequenceNumber]. unfold is_uint16. apply Z.mod_pos_bound. lia.
  - exact H32.
  - cbn [MsgCommands Commands]. constructor; [exact Hwf|constructor].
  - cbn [MsgCommands Commands Timestamp deltasReadable DeltaTime].
    split; [lia|constructor].
  - unfold listBody. cbn [MsgCommands Commands Timestamp].
    rewrite encodeCommands_first. cbn [snd DeltaTime Payload map concat].
    change (0 <? 0) with false. cbn iota.
    rewrite encodePayload_wellFormed by exact Hwf.
    now rewrite app_nil_l, app_nil_r.
Qed.

End SendAndDecode.

(** A Note-On sent in the example session, whose sequence number wraps
    from 65535 to 0. *)
Lemma SendMIDIPayload_decodes_witness :
  Decode 9 (Encode exampleTimestampOf exampleEncodeDeltaTime
              {| SequenceNumber := 0; SSRC := 0x11223344;
                 MsgCommands :=
                   {| Timestamp := 3;
                      Commands := [ {| DeltaTime := 0;
                                       Payload := [0x90; 0x40; 0x7f] |} ] |} |}
              0)
  = Return ({| SequenceNumber := 0; SSRC := 0x11223344;
               MsgCommands :=
                 {| Timestamp := 9;
                    Commands := [ {| DeltaTime := 0;
                                     Payload := [0x90; 0x40; 0x7f] |} ] |} |},
            None).
Proof.
  refine (SendMIDIPayload_decodes exampleTimestampOf exampleEncodeDeltaTime
            3 9 0 (session.sess session.exampleWorld) [0x90; 0x40; 0x7f]
            1%positive _ _ _ _ _).
  - reflexivity.
  - vm_compute. discriminate.
  - unfold is_uint32. cbn. lia.
  - vm_compute. apply list_elem_of_here.
Defined.

(** ** Where the decoder cannot panic *)

Lemma index_in_range buffer i :
  0 <= i < len buffer -> exists b, index buffer i = Return b.
Proof.
  intros [H0 H1]. unfold index. rewrite decide_True by exact H0.
  destruct (buffer !! Z.to_nat i) as [b|] eqn:E; [eauto|].
  apply lookup_ge_None in E. unfold len in H1. lia.
Qed.

Lemma readDeltaTime_returns k buffer o d :
  0 <= o -> o + Z.of_nat k <= len buffer ->
  exists v o', readDeltaTime k buffer o d = Return (v, o')
               /\ o <= o' <= o + Z.of_nat k.
Proof.
  revert o d. induction k as [|k IH]; intros o d H0 Hk.
  - exists d, o. split; [reflexivity|lia].
  - cbn [readDeltaTime].
    destruct (index_in_range buffer o ltac:(lia)) as [b ->]. cbn [obind].
    destruct (Z.land b deltaTimeHasNext =? 0).
    + eexists _, _. split; [reflexivity|lia].
    + destruct (IH (o + 1)
                  (Z.lor (Z.shiftl d 7 mod 2 ^ 32) (Z.land b deltaTimeMask))
                  ltac:(lia) ltac:(lia)) as (v & o' & -> & Ho).
      eexists _, _. split; [reflexivity|lia].
Qed.

Lemma scanSysEx_stops rest n (j : nat) b :
  rest !! j = Some b -> isStatus b = true ->
  scanSysEx rest n <= n + Z.of_nat j.
Proof.
  revert n j. induction rest as [|x rest IH]; intros n j Hj Hb;
    [discriminate|].
  cbn [scanSysEx]. destruct j as [|j].
  - injection Hj as ->. unfold isStatus in Hb. apply Z.eqb_eq in Hb.
    rewrite Hb. change (0 <? 128) with true. cbn iota. lia.
  - destruct (0 <? Z.land x 128); [lia|].
    specialize (IH (n + 1) j Hj Hb). lia.
Qed.

(** One iteration returns where four octets and, somewhere behind them,
    an octet with the high bit set follow the end of the list. *)
Lemma parseCommand_returns buffer header st end_ i b :
  0 <= offset st < end_ ->
  end_ + 4 <= i -> index buffer i = Return b -> isStatus b = true ->
  exists r, parseCommand buffer header st = Return r.
Proof.
  intros [H0 Hlt] Hi Hb Hs.
  pose proof (index_Return _ _ _ Hb) as [[_ Hilen] _].
  assert (Hd : exists v o1, readCommandDelta buffer header st = Return (v, o1)
                            /\ offset st <= o1 <= offset st + 4).
  { unfold readCommandDelta. destruct (_ || _).
    - apply readDeltaTime_returns; lia.
    - eexists _, _. split; [reflexivity|lia]. }
  destruct Hd as (v & o1 & Hd & Ho1).
  unfold parseCommand. rewrite Hd. cbn [obind fst snd].
  destruct (index_in_range buffer o1 ltac:(lia)) as [sb ->]. cbn [obind].
  set (own := Z.land sb 128 =? 128).
  set (status := if own then sb else lastStatusByte st).
  set (o2 := if own then o1 + 1 else o1).
  assert (Ho2 : o1 <= o2 <= o1 + 1) by (subst o2; destruct own; lia).
  match goal with
  | |- exists r, obind ?dl _ = _ =>
      assert (Hdl : exists dataLength, dl = Return dataLength)
  end.
  { destruct (status =? 240); [|eauto]. cbv zeta.
    pose proof (scanSysEx_lower (drop (Z.to_nat o2) buffer) 0) as Hlo.
    assert (Hup : scanSysEx (drop (Z.to_nat o2) buffer) 0 <= i - o2).
    { pose proof (scanSysEx_stops (drop (Z.to_nat o2) buffer) 0
                    (Z.to_nat (i - o2)) b) as Hst.
      rewrite lookup_drop in Hst.
      replace (Z.to_nat o2 + Z.to_nat (i - o2))%nat with (Z.to_nat i)
        in Hst by lia.
      unfold index in Hb. rewrite decide_True in Hb by lia.
      destruct (buffer !! Z.to_nat i) as [x|]; [|discriminate].
      injection Hb as ->. specialize (Hst eq_refl Hs). lia. }
    destruct (index_in_range buffer
                (o2 + scanSysEx (drop (Z.to_nat o2) buffer) 0) ltac:(lia))
      as [t ->].
    cbn [obind]. eauto. }
  destruct Hdl as [dataLength ->]. cbn [obind].
  destruct (Z.ltb_spec (len buffer) (o2 + dataLength)) as [|Hfit]; [eauto|].
  destruct (Z.ltb_spec 0 dataLength) as [Hpos|Hnp].
  - rewrite slice_in_range by lia. cbn [obind fst snd].
    destruct (negb _); eauto.
  - cbn [obind fst snd]. destruct (negb _); eauto.
Qed.

Lemma parseLoop_returns fuel buffer header end_ i b st :
  0 <= offset st ->
  end_ + 4 <= i -> index buffer i = Return b -> isStatus b = true ->
  parseLoop fuel buffer header end_ st <> Panic.
Proof.
  intros H0 Hi Hb Hs. revert st H0.
  induction fuel as [|fuel IH]; intros st H0; cbn [parseLoop];
    destruct (Z.ltb_spec (offset st) end_) as [Hlt|_]; try discriminate.
  destruct (parseCommand_returns buffer header st end_ i b
              ltac:(lia) Hi Hb Hs) as [[st'|ret] Hr]; rewrite Hr; cbn [obind].
  - apply IH. apply parseCommand_progress in Hr as (Hadv & _). lia.
  - discriminate.
Qed.

(** X18. [Decode] reads at most four octets behind the end that the list header
    gives to the list, and for a System-Exclusive command as far as the
    next octet with the high bit set. So it returns, and does not panic, on
    every buffer that has, four octets or more after the end of the list,
    an octet [b] with the high bit set. *)
Theorem Decode_returns_with_slack (now : Z) (buffer : list Z)
  (header : MIDIListHeader) (listStart i b : Z) :
  decodeListHeader buffer = Return (header, listStart) ->
  listStart + Len header + 4 <= i ->
  index buffer i = Return b -> isStatus b = true ->
  exists m e, Decode now buffer = Return (m, e).
Proof.
  intros Hh Hi Hb Hs.
  pose proof (decodeListHeader_start _ _ Hh) as H13. cbn [snd] in H13.
  assert (H12 : 12 <= len buffer).
  { unfold decodeListHeader in Hh.
    destruct (index buffer 12) as [x| |] eqn:E; try discriminate.
    apply index_Return in E as [E _]. lia. }
  rewrite Decode_long by exact H12.
  destruct (decide _); [eexists _, _; reflexivity|]. rewrite Hh. cbn [obind fst snd].
  pose proof (parseMIDIList_not_OutOfFuel buffer listStart header) as Hf.
  assert (Hp : parseMIDIList buffer listStart header <> Panic).
  { unfold parseMIDIList.
    apply (parseLoop_returns _ _ _ _ i b); [cbn [offset]; lia|lia|exact Hb|exact Hs]. }
  destruct (parseMIDIList buffer listStart header) as [parsed| |];
    try congruence.
  cbn [obind]. eexists _, _. reflexivity.
Qed.

(** An unterminated SysEx command before five more octets, the last with
    the high bit set. *)
Lemma Decode_returns_with_slack_witness :
  exists m e,
    Decode 0 (exampleHeader ++ [0x03; 0xf0; 0x01; 0x02; 0; 0; 0; 0; 0xf7])
    = Return (m, e).
Proof.
  refine (Decode_returns_with_slack 0
            (exampleHeader ++ [0x03; 0xf0; 0x01; 0x02; 0; 0; 0; 0; 0xf7])
            _ 13 20 0xf7 _ _ _ _).
  - reflexivity.
  - vm_compute. discriminate.
  - reflexivity.
  - reflexivity.
Defined.
